(** * REST request/response channel of a Flower SuperNode

    Shallow embedding of [flwr/client/rest_client/connection.py]
    ([http_request_response] and its inner functions [_request],
    [send_node_heartbeat], [create_node], [delete_node], [receive], [send],
    [get_run], [get_fab]).

    The closure variables shared by the inner functions ([node], the
    heartbeat sender, [retry_invoker.max_tries]) become the fields of an
    explicit state; the network is an oracle of outcomes consumed one per
    [requests.post]; Python exceptions are the error branch of a
    state-and-exception monad.  As in Python, state updated before a raise
    is kept when the exception propagates. *)

From Stdlib Require Import String List ZArith Bool Lia.
Import ListNotations.
Set Warnings "-register-all".
Open Scope string_scope.
Open Scope Z_scope.

Definition bytes := list Byte.byte.

(** ** Python exceptions met on the paths of the module *)

Inductive exn :=
| ValueError
| RuntimeError
| IndexError
| UnboundLocalError
| RequestsConnectionError
| KeyboardInterrupt
| SystemExit.

(** [except Exception] catches everything but the [BaseException]-only
    classes. *)
Definition is_Exception (e : exn) : bool :=
  match e with
  | KeyboardInterrupt | SystemExit => false
  | _ => true
  end.

Definition is_ValueError (e : exn) : bool :=
  match e with ValueError => true | _ => false end.

Definition is_RequestsConnectionError (e : exn) : bool :=
  match e with RequestsConnectionError => true | _ => false end.

Definition exn_str (e : exn) : string :=
  match e with
  | ValueError => "ValueError"
  | RuntimeError => "RuntimeError"
  | IndexError => "IndexError"
  | UnboundLocalError => "UnboundLocalError"
  | RequestsConnectionError => "ConnectionError"
  | KeyboardInterrupt => "KeyboardInterrupt"
  | SystemExit => "SystemExit"
  end.

Inductive level := DEBUG | INFO | WARN | ERROR.

(** ** Protobuf messages (only the fields the module reads or writes) *)

Record Metadata := mkMetadata {
  message_id : string;
  run_id : Z;
  dst_node_id : Z
}.

(** A message on the wire: its content has been removed
    ([remove_content_from_message]) and travels as objects. *)
Record MessageProto := mkMessageProto { metadata : Metadata }.

Inductive ObjectTree :=
| mkObjectTree (object_id : string) (children : list ObjectTree).

Definition tree_object_id (t : ObjectTree) : string :=
  match t with mkObjectTree i _ => i end.

Record RunProto := mkRunProto {
  RunProto_run_id : Z;
  RunProto_fab_id : string;
  RunProto_fab_version : string;
  RunProto_fab_hash : string
}.

Record FabProto := mkFabProto {
  FabProto_hash_str : string;
  FabProto_content : bytes
}.

(** Requests; [node] is the [Node] message, identified by its [node_id]. *)
Inductive Req :=
| CreateNodeRequest (heartbeat_interval : Z)
| DeleteNodeRequest (node : Z)
| SendNodeHeartbeatRequest (node : Z) (heartbeat_interval : Z)
| PullMessagesRequest (node : Z)
| PushMessagesRequest (node : Z) (messages_list : list MessageProto)
    (message_object_trees : list ObjectTree)
| PullObjectRequest (node : Z) (run_id : Z) (object_id : string)
| PushObjectRequest (node : Z) (run_id : Z) (object_id : string)
    (object_content : bytes)
| ConfirmMessageReceivedRequest (node : Z) (run_id : Z)
    (message_object_id : string)
| GetRunRequest (node : option Z) (run_id : Z)
| GetFabRequest (node : option Z) (hash_str : string) (run_id : Z).

Record CreateNodeResponse := mkCreateNodeResponse { CreateNodeResponse_node : Z }.
Record SendNodeHeartbeatResponse := mkSendNodeHeartbeatResponse { success : bool }.
Record PullMessagesResponse := mkPullMessagesResponse {
  messages_list : list MessageProto;
  message_object_trees : list ObjectTree
}.
(** [objects_to_push] is the proto map [message id -> ObjectIDs]. *)
Record PushMessagesResponse := mkPushMessagesResponse {
  objects_to_push : list (string * list string)
}.
Record PullObjectResponse := mkPullObjectResponse {
  object_found : bool;
  object_available : bool;
  object_content : bytes
}.
Record GetRunResponse := mkGetRunResponse { GetRunResponse_run : RunProto }.
Record GetFabResponse := mkGetFabResponse { GetFabResponse_fab : FabProto }.

(** The serialized body of an HTTP response, by the message it encodes. *)
Inductive Body :=
| BCreateNode (r : CreateNodeResponse)
| BDeleteNode
| BSendNodeHeartbeat (r : SendNodeHeartbeatResponse)
| BPullMessages (r : PullMessagesResponse)
| BPushMessages (r : PushMessagesResponse)
| BPullObject (r : PullObjectResponse)
| BPushObject
| BConfirmMessageReceived
| BGetRun (r : GetRunResponse)
| BGetFab (r : GetFabResponse).

(** [res_type(); grpc_res.ParseFromString(res.content)]: a body of another
    message type decodes to the default value of [res_type]. *)
Definition parse_CreateNodeResponse (b : Body) : CreateNodeResponse :=
  match b with BCreateNode r => r | _ => mkCreateNodeResponse 0 end.
Definition parse_SendNodeHeartbeatResponse (b : Body) : SendNodeHeartbeatResponse :=
  match b with BSendNodeHeartbeat r => r | _ => mkSendNodeHeartbeatResponse false end.
Definition parse_PullMessagesResponse (b : Body) : PullMessagesResponse :=
  match b with BPullMessages r => r | _ => mkPullMessagesResponse [] [] end.
Definition parse_PushMessagesResponse (b : Body) : PushMessagesResponse :=
  match b with BPushMessages r => r | _ => mkPushMessagesResponse [] end.
Definition parse_PullObjectResponse (b : Body) : PullObjectResponse :=
  match b with BPullObject r => r | _ => mkPullObjectResponse false false [] end.
Definition parse_GetRunResponse (b : Body) : GetRunResponse :=
  match b with BGetRun r => r | _ => mkGetRunResponse (mkRunProto 0 "" "" "") end.
Definition parse_GetFabResponse (b : Body) : GetFabResponse :=
  match b with BGetFab r => r | _ => mkGetFabResponse (mkFabProto "" []) end.
(** [DeleteNodeResponse], [PushObjectResponse] and
    [ConfirmMessageReceivedResponse] carry no field the module reads. *)
Definition parse_empty (b : Body) : unit := tt.

(** An HTTP response of [requests]; [content_type] is the value of the
    (case-insensitive) [content-type] header, if present. *)
Record Response := mkResponse {
  status_code : Z;
  content_type : option string;
  content : Body
}.

(** What one [requests.post] call meets: a response, or a failure that
    [requests] raises as [ConnectionError]. *)
Inductive PostOutcome :=
| Responded (r : Response)
| Unreachable.

Inductive Event :=
| EPost (api_path : string) (req : Req)
| ELog (lvl : level) (msg : string)
| EHeartbeatStart
| EHeartbeatStop
| EStore (object_id : string).

(** The closure state of [http_request_response]. *)
Record State := mkState {
  node : option Z;
  hb_running : bool;
  max_tries : nat;
  net : list PostOutcome;
  trace : list Event
}.

Definition set_node (n : option Z) (s : State) : State :=
  mkState n (hb_running s) (max_tries s) (net s) (trace s).
Definition set_hb_running (b : bool) (s : State) : State :=
  mkState (node s) b (max_tries s) (net s) (trace s).
Definition set_max_tries (k : nat) (s : State) : State :=
  mkState (node s) (hb_running s) k (net s) (trace s).
Definition set_net (o : list PostOutcome) (s : State) : State :=
  mkState (node s) (hb_running s) (max_tries s) o (trace s).
Definition emit (e : Event) (s : State) : State :=
  mkState (node s) (hb_running s) (max_tries s) (net s) (trace s ++ [e]).

(** ** State and exception monad *)

Inductive Result (A : Type) :=
| Ok (a : A)
| Exc (e : exn).
Arguments Ok {A} a.
Arguments Exc {A} e.

Definition M (A : Type) := State -> Result A * State.

Definition ret {A} (a : A) : M A := fun s => (Ok a, s).
Definition raise {A} (e : exn) : M A := fun s => (Exc e, s).
Definition bind {A B} (m : M A) (k : A -> M B) : M B := fun s =>
  match m s with
  | (Ok a, s1) => k a s1
  | (Exc e, s1) => (Exc e, s1)
  end.

Notation "x <- m ;; k" := (bind m (fun x => k))
  (at level 61, m at next level, right associativity).
Notation "m ;;; k" := (bind m (fun _ => k))
  (at level 61, right associativity).

Definition modify (f : State -> State) : M unit := fun s => (Ok tt, f s).
Definition get_node : M (option Z) := fun s => (Ok (node s), s).
Definition log (lvl : level) (msg : string) : M unit := modify (emit (ELog lvl msg)).

(** [try: m except <p> as e: h(e)] *)
Definition try_except {A} (p : exn -> bool) (m : M A) (h : exn -> M A) : M A :=
  fun s =>
    match m s with
    | (Exc e, s1) => if p e then h e s1 else (Exc e, s1)
    | r => r
    end.

(** ** Module constants *)

Definition PATH_CREATE_NODE : string := "api/v0/fleet/create-node".
Definition PATH_DELETE_NODE : string := "api/v0/fleet/delete-node".
Definition PATH_PULL_MESSAGES : string := "/api/v0/fleet/pull-messages".
Definition PATH_PUSH_MESSAGES : string := "/api/v0/fleet/push-messages".
Definition PATH_PULL_OBJECT : string := "/api/v0/fleet/pull-object".
Definition PATH_PUSH_OBJECT : string := "/api/v0/fleet/push-object".
Definition PATH_SEND_NODE_HEARTBEAT : string := "api/v0/fleet/send-node-heartbeat".
Definition PATH_GET_RUN : string := "/api/v0/fleet/get-run".
Definition PATH_GET_FAB : string := "/api/v0/fleet/get-fab".
Definition PATH_CONFIRM_MESSAGE_RECEIVED : string :=
  "/api/v0/fleet/confirm-message-received".

(** [flwr.common.constant.HEARTBEAT_DEFAULT_INTERVAL] *)
Definition HEARTBEAT_DEFAULT_INTERVAL : Z := 30.

Definition PROTOBUF : string := "application/protobuf".

(** ** Setup of [http_request_response] (lines 160-176) *)

(** [root_certificates : Optional[Union[bytes, str]]] *)
Inductive RootCertificates :=
| RCBytes (b : bytes)
| RCStr (path : string).

(** [verify : Union[bool, str]] *)
Inductive Verify :=
| VerifyBool (b : bool)
| VerifyPath (path : string).

(** The [verify] value and the log lines of the setup.  [insecure] is
    unused by the source; [K] is the key-pair type of
    [authentication_keys]. *)
Definition connection_setup {K : Type} (insecure : bool)
    (root_certificates : option RootCertificates)
    (authentication_keys : option K) : Verify * list (level * string) :=
  let warn := [(WARN, "EXPERIMENTAL: `rest` is an experimental feature, it might change considerably in future versions of Flower")] in
  let '(verify, logs) :=
    match root_certificates with
    | Some (RCStr p) => (VerifyPath p, warn)
    | Some (RCBytes _) =>
        (VerifyBool true,
         app warn [(ERROR, "For the REST API, the root certificates must be provided as a string path to the client.")])
    | None => (VerifyBool true, warn)
    end in
  match authentication_keys with
  | Some _ =>
      (verify, app logs [(ERROR, "Client authentication is not supported for this transport type.")])
  | None => (verify, logs)
  end.

(** ** [requests.post] and the retry invoker *)

(** [post()]: one HTTP round trip, consuming one outcome of the network. *)
Definition post (api_path : string) (req : Req) : M Response := fun s =>
  let s1 := emit (EPost api_path req) s in
  match net s with
  | [] => (Exc RequestsConnectionError, s1)
  | Unreachable :: rest => (Exc RequestsConnectionError, set_net rest s1)
  | Responded r :: rest => (Ok r, set_net rest s1)
  end.

(** Modelled from the spec: [RetryInvoker.invoke] (flwr.common.retry_invoker,
    not under src/), "wraps a single network operation with a
    backoff/retry policy; exposes a mutable attempt-budget".  The operation
    is attempted at most [max_tries] times (at least once) while it raises
    the recoverable [ConnectionError]; when the budget is spent the last
    exception is raised.  Waiting between attempts is not observable here. *)
Fixpoint invoke_attempts {A} (n : nat) (op : M A) : M A := fun s =>
  match op s with
  | (Exc RequestsConnectionError, s1) =>
      match n with
      | S (S _ as k) => invoke_attempts k op s1
      | _ => (Exc RequestsConnectionError, s1)
      end
  | r => r
  end.

Definition invoke {A} (op : M A) : M A := fun s => invoke_attempts (max_tries s) op s.

(** ** [_request] (lines 185-230) *)

(** Status code and header checks, then deserialization.  Response bodies
    are typed ([Body]), so a payload that [ParseFromString] rejects
    (protobuf [DecodeError]) is not represented: every result below is for
    well-formed bodies. *)
Definition check_response {T} (parse : Body -> T) (api_path : string)
    (res : Response) : M (option T) :=
  if negb (Z.eqb (status_code res) 200) then ret None
  else
    match content_type res with
    | None =>
        log WARN ("[Node] POST /" ++ api_path ++ ": missing header `Content-Type`") ;;;
        ret None
    | Some ct =>
        if negb (String.eqb ct PROTOBUF) then
          log WARN ("[Node] POST /" ++ api_path ++ ": header `Content-Type` has wrong value") ;;;
          ret None
        else ret (Some (parse (content res)))
    end.

Definition _request {T} (parse : Body -> T) (api_path : string) (req : Req)
    (retry : bool) : M (option T) :=
  res <- (if retry then invoke (post api_path req) else post api_path req) ;;
  check_response parse api_path res.

(** ** Heartbeat sender *)

(** Modelled from the spec: [HeartbeatSender.start] and [.stop]
    (flwr.common.heartbeat, not under src/): "start(probe), stop() with the
    stop-returns-only-after-quiescent guarantee".  The probe itself is
    [send_node_heartbeat]; the sender's running flag is [hb_running]. *)
Definition heartbeat_start : M unit :=
  modify (fun s => set_hb_running true (emit EHeartbeatStart s)).
Definition heartbeat_stop : M unit :=
  modify (fun s => set_hb_running false (emit EHeartbeatStop s)).

(** [send_node_heartbeat] (lines 232-256) *)
Definition send_node_heartbeat : M bool :=
  n <- get_node ;;
  match n with
  | None => log ERROR "Node instance missing" ;;; ret false
  | Some nd =>
      res <- _request parse_SendNodeHeartbeatResponse PATH_SEND_NODE_HEARTBEAT
               (SendNodeHeartbeatRequest nd HEARTBEAT_DEFAULT_INTERVAL) false ;;
      match res with
      | None => ret false
      | Some r => if negb (success r) then raise RuntimeError else ret true
      end
  end.

(** [create_node] (lines 260-273) *)
Definition create_node : M (option Z) :=
  res <- _request parse_CreateNodeResponse PATH_CREATE_NODE
           (CreateNodeRequest HEARTBEAT_DEFAULT_INTERVAL) true ;;
  match res with
  | None => ret None
  | Some r =>
      modify (set_node (Some (CreateNodeResponse_node r))) ;;;
      heartbeat_start ;;;
      ret (Some (CreateNodeResponse_node r))
  end.

(** [delete_node] (lines 275-294) *)
Definition delete_node : M unit :=
  n <- get_node ;;
  match n with
  | None => log ERROR "Node instance missing"
  | Some nd =>
      heartbeat_stop ;;;
      res <- _request parse_empty PATH_DELETE_NODE (DeleteNodeRequest nd) true ;;
      match res with
      | None => ret tt
      | Some _ => modify (set_node None)
      end
  end.

(** ** Messages and the object synchronization collaborators *)

(** Modelled from the spec: the content-addressing model
    (flwr.common.inflatable and flwr.common.message, not under src/).  A
    [Message] carries its metadata and, as computed once inside
    [no_object_id_recompute()], its own object id, the bytes of all its
    nested objects keyed by id ([get_all_nested_objects]) and its object tree
    ([get_object_tree]). *)
Record Message := mkMessage {
  msg_metadata : Metadata;
  msg_object_id : string;
  msg_nested_objects : list (string * bytes);
  msg_object_tree : ObjectTree
}.

Definition get_all_nested_objects (m : Message) : list (string * bytes) :=
  msg_nested_objects m.
Definition get_object_tree (m : Message) : ObjectTree := msg_object_tree m.

(** [message_to_proto(remove_content_from_message(message))]: only the
    metadata travels in the primary request. *)
Definition message_to_proto_without_content (m : Message) : MessageProto :=
  mkMessageProto (msg_metadata m).

(** [iterate_object_tree]: every node of the tree, root first. *)
Fixpoint iterate_object_tree (t : ObjectTree) : list ObjectTree :=
  match t with
  | mkObjectTree _ ch => t :: flat_map iterate_object_tree ch
  end.

(** Modelled from the spec: [inflate_object_from_contents] "reconstruct the
    full message from the resolved chunk contents, keyed by chunk id, with
    the message's own id as the root".  The metadata decoded from the root
    object is left at its default; [receive] injects the message id. *)
Definition inflate_object_from_contents (msg_id : string)
    (contents : list (string * bytes)) : Message :=
  mkMessage (mkMetadata "" 0 0) msg_id contents (mkObjectTree msg_id []).

Definition set_message_id (m : Message) (msg_id : string) : Message :=
  mkMessage
    (mkMetadata msg_id (run_id (msg_metadata m)) (dst_node_id (msg_metadata m)))
    (msg_object_id m) (msg_nested_objects m) (msg_object_tree m).

Fixpoint assoc_lookup {V} (k : string) (l : list (string * V)) : option V :=
  match l with
  | [] => None
  | (k', v) :: rest => if String.eqb k k' then Some v else assoc_lookup k rest
  end.

(** Modelled from the spec: [make_pull_object_fn_rest]
    (flwr.common.inflatable_rest_utils, not under src/): the [Fetch(id)]
    capability bound to an explicit (node, run) context. *)
Definition make_pull_object_fn_rest (pull_object_rest : Req -> M PullObjectResponse)
    (nd : Z) (run : Z) : string -> M bytes :=
  fun oid => r <- pull_object_rest (PullObjectRequest nd run oid) ;; ret (object_content r).

(** Modelled from the spec: [make_push_object_fn_rest], the [Store(id, bytes)]
    capability bound to (node, run). *)
Definition make_push_object_fn_rest (push_object_rest : Req -> M unit)
    (nd : Z) (run : Z) : string -> bytes -> M unit :=
  fun oid b => push_object_rest (PushObjectRequest nd run oid b).

Fixpoint pull_each (fetch : string -> M bytes) (ids : list string)
    : M (list (string * bytes)) :=
  match ids with
  | [] => ret []
  | i :: rest =>
      c <- fetch i ;;
      cs <- pull_each fetch rest ;;
      ret ((i, c) :: cs)
  end.

(** Modelled from the spec: [pull_objects] (flwr.common.inflatable_utils,
    not under src/): "visits every id reachable from the root tree exactly
    once ... A null/failed fetch for any id is fatal for the whole pull";
    the fetch's exception propagates. *)
Definition pull_objects (object_ids : list string) (pull_object_fn : string -> M bytes)
    : M (list (string * bytes)) :=
  pull_each pull_object_fn (nodup string_dec object_ids).

(** One store attempt of the push path; its failure is recorded, not raised. *)
Definition store_once (push_object_fn : string -> bytes -> M unit) (i : string)
    (b : bytes) : M bool := fun s =>
  match push_object_fn i b (emit (EStore i) s) with
  | (Ok _, s1) => (Ok true, s1)
  | (Exc _, s1) => (Ok false, s1)
  end.

Fixpoint push_each (objects : list (string * bytes))
    (push_object_fn : string -> bytes -> M unit) (ids : list string)
    : M (list string) :=
  match ids with
  | [] => ret []
  | i :: rest =>
      match assoc_lookup i objects with
      | None => push_each objects push_object_fn rest
      | Some b =>
          ok <- store_once push_object_fn i b ;;
          failed <- push_each objects push_object_fn rest ;;
          ret (if ok then failed else i :: failed)
      end
  end.

(** Modelled from the spec: [push_objects]: "given an explicit subset of
    missing ids, invokes [store] for each [with that object's raw bytes]. A
    failed store is recorded and skipped; remaining ids are still
    attempted".  Returns the ids whose store failed. *)
Definition push_objects (objects : list (string * bytes))
    (push_object_fn : string -> bytes -> M unit) (object_ids_to_push : list string)
    : M (list string) :=
  push_each objects push_object_fn object_ids_to_push.

(** ** [receive] (lines 296-368) *)

(** [lst[0]] *)
Definition getitem0 {A} (l : list A) : M A :=
  match l with [] => raise IndexError | x :: _ => ret x end.

(** The inner [fn] of [receive]. *)
Definition pull_object_rest (request : Req) : M PullObjectResponse :=
  res <- _request parse_PullObjectResponse PATH_PULL_OBJECT request true ;;
  match res with
  | None => raise ValueError
  | Some r => ret r
  end.

(** The first message of the response, kept only if addressed to [nd]. *)
Definition valid_message_proto (nd : Z) (r : PullMessagesResponse) : option MessageProto :=
  let message_proto := match messages_list r with [] => None | m :: _ => Some m end in
  match message_proto with
  | Some m => if negb (Z.eqb (dst_node_id (metadata m)) nd) then None else Some m
  | None => None
  end.

(** The body of the [try] block; its result is the value bound to the local
    [all_object_contents], [None] while it is unbound. *)
Definition receive_pull (r : PullMessagesResponse) (nd : Z) (msg_id : string)
    (run : Z) : M (option (list (string * bytes))) :=
  try_except is_ValueError
    (object_tree <- getitem0 (message_object_trees r) ;;
     all_object_contents <-
       pull_objects (map tree_object_id (iterate_object_tree object_tree))
         (make_pull_object_fn_rest pull_object_rest nd run) ;;
     _request parse_empty PATH_CONFIRM_MESSAGE_RECEIVED
       (ConfirmMessageReceivedRequest nd run msg_id) true ;;;
     ret (Some all_object_contents))
    (fun e =>
       log ERROR ("Pulling objects failed. Potential irrecoverable error: " ++ exn_str e) ;;;
       ret None).

Definition receive : M (option Message) :=
  n <- get_node ;;
  match n with
  | None => log ERROR "Node instance missing" ;;; ret None
  | Some nd =>
      res <- _request parse_PullMessagesResponse PATH_PULL_MESSAGES
               (PullMessagesRequest nd) true ;;
      match res with
      | None => ret None
      | Some r =>
          match valid_message_proto nd r with
          | None => ret None
          | Some m =>
              log INFO ("[Node] POST /" ++ PATH_PULL_MESSAGES ++ ": success") ;;;
              let msg_id := message_id (metadata m) in
              let run := run_id (metadata m) in
              bound <- receive_pull r nd msg_id run ;;
              match bound with
              | None => raise UnboundLocalError
              | Some all_object_contents =>
                  let in_message := inflate_object_from_contents msg_id all_object_contents in
                  ret (Some (set_message_id in_message msg_id))
              end
          end
      end
  end.

(** ** [send] (lines 370-431) *)

(** The inner [fn] of [send]. *)
Definition push_object_rest (request : Req) : M unit :=
  res <- _request parse_empty PATH_PUSH_OBJECT request true ;;
  match res with
  | None => raise ValueError
  | Some _ => ret tt
  end.

(** [res.objects_to_push[k].object_ids]: reading a missing key of a proto
    map yields the default (empty) entry. *)
Definition objects_to_push_of (k : string) (r : PushMessagesResponse) : list string :=
  match assoc_lookup k (objects_to_push r) with
  | Some ids => ids
  | None => []
  end.

(** [set(...)] *)
Definition to_set (l : list string) : list string := nodup string_dec l.

Definition send_push (message : Message) (nd : Z) (message_proto : MessageProto)
    (r : PushMessagesResponse) : M unit :=
  match objects_to_push r with
  | [] => ret tt
  | _ :: _ =>
      let objs_to_push := to_set (objects_to_push_of (msg_object_id message) r) in
      try_except is_ValueError
        (push_objects (get_all_nested_objects message)
           (make_push_object_fn_rest push_object_rest nd (run_id (metadata message_proto)))
           objs_to_push ;;;
         log DEBUG "Pushed objects to servicer.")
        (fun e =>
           log ERROR ("Pushing objects failed. Potential irrecoverable error: " ++ exn_str e) ;;;
           log ERROR (exn_str e))
  end.

Definition send (message : Message) : M unit :=
  n <- get_node ;;
  match n with
  | None => log ERROR "Node instance missing"
  | Some nd =>
      let object_tree := get_object_tree message in
      let message_proto := message_to_proto_without_content message in
      res <- _request parse_PushMessagesResponse PATH_PUSH_MESSAGES
               (PushMessagesRequest nd [message_proto] [object_tree]) true ;;
      match res with
      | None => ret tt
      | Some r =>
          log INFO ("[Node] POST /" ++ PATH_PUSH_MESSAGES ++ ": success, created result") ;;;
          send_push message nd message_proto r
      end
  end.

(** ** [get_run] and [get_fab] (lines 434-457) *)

(** [flwr.common.typing.Run] (the fields the module's callers read). *)
Record Run := mkRun {
  Run_run_id : Z;
  Run_fab_id : string;
  Run_fab_version : string;
  Run_fab_hash : string
}.

(** Modelled from the spec: [Run.create_empty] (flwr.common.typing, not
    under src/), the empty run sentinel carrying the given run id. *)
Definition Run_create_empty (run_id : Z) : Run := mkRun run_id "" "" "".

(** [flwr.common.serde.run_from_proto], field by field. *)
Definition run_from_proto (p : RunProto) : Run :=
  mkRun (RunProto_run_id p) (RunProto_fab_id p) (RunProto_fab_version p)
    (RunProto_fab_hash p).

Definition get_run (run_id : Z) : M Run :=
  n <- get_node ;;
  res <- _request parse_GetRunResponse PATH_GET_RUN (GetRunRequest n run_id) true ;;
  match res with
  | None => ret (Run_create_empty run_id)
  | Some r => ret (run_from_proto (GetRunResponse_run r))
  end.

(** [flwr.common.typing.Fab] *)
Record Fab := mkFab {
  Fab_hash_str : string;
  Fab_content : bytes
}.

Definition get_fab (fab_hash : string) (run_id : Z) : M Fab :=
  n <- get_node ;;
  res <- _request parse_GetFabResponse PATH_GET_FAB (GetFabRequest n fab_hash run_id) true ;;
  match res with
  | None => ret (mkFab "" [])
  | Some r => ret (mkFab (FabProto_hash_str (GetFabResponse_fab r)) (FabProto_content (GetFabResponse_fab r)))
  end.

(** ** The session scope (lines 459-472) *)

(** [try: yield ... except Exception as exc: log(ERROR, exc)]; [body] is
    whatever the caller does with the yielded functions inside the
    [with] block. *)
Definition session_try (body : M unit) : M unit :=
  try_except is_Exception body (fun e => log ERROR (exn_str e)).

(** The [finally] clause. *)
Definition session_finally : M unit :=
  try_except is_RequestsConnectionError
    (n <- get_node ;;
     match n with
     | Some _ => modify (set_max_tries 1) ;;; delete_node
     | None => ret tt
     end)
    (fun _ => ret tt).

(** [try ... finally ...]: an exception of the [finally] clause replaces a
    pending one; otherwise the outcome of the [try] part stands. *)
Definition http_request_response_scope (body : M unit) : M unit := fun s =>
  match session_try body s with
  | (r, s1) =>
      match session_finally s1 with
      | (Exc e, s2) => (Exc e, s2)
      | (Ok _, s2) => (r, s2)
      end
  end.

Definition emit_logs (logs : list (level * string)) (s : State) : State :=
  fold_left (fun s' lm => emit (ELog (fst lm) (snd lm)) s') logs s.

(** [http_request_response] as a whole: setup, [node = None], a fresh
    (not started) heartbeat sender, then the scope. *)
Definition http_request_response {K : Type} (insecure : bool)
    (root_certificates : option RootCertificates) (authentication_keys : option K)
    (body : M unit) : M unit := fun s =>
  let logs := snd (connection_setup insecure root_certificates authentication_keys) in
  http_request_response_scope body
    (set_hb_running false (set_node None (emit_logs logs s))).

(** ** Observations on traces *)

Fixpoint posts (tr : list Event) : list (string * Req) :=
  match tr with
  | [] => []
  | EPost p r :: rest => (p, r) :: posts rest
  | _ :: rest => posts rest
  end.

Fixpoint stores (tr : list Event) : list string :=
  match tr with
  | [] => []
  | EStore i :: rest => i :: stores rest
  | _ :: rest => stores rest
  end.

Fixpoint heartbeat_starts (tr : list Event) : nat :=
  match tr with
  | [] => 0
  | EHeartbeatStart :: rest => S (heartbeat_starts rest)
  | _ :: rest => heartbeat_starts rest
  end.

(** * Proofs *)

Open Scope list_scope.

(** ** Frame properties of the network helpers *)

(** Events a request can add: posts and log lines. *)
Definition net_event (e : Event) : bool :=
  match e with EPost _ _ | ELog _ _ => true | _ => false end.

Definition frames (s s1 : State) : Prop :=
  node s1 = node s /\ hb_running s1 = hb_running s /\
  max_tries s1 = max_tries s /\
  exists t, trace s1 = trace s ++ t /\ forallb net_event t = true.

Definition Frames {A} (m : M A) : Prop :=
  forall s x s1, m s = (x, s1) -> frames s s1.

Lemma frames_refl : forall s, frames s s.
Proof. intro s; repeat split; exists []; rewrite app_nil_r; auto. Qed.

Lemma frames_trans : forall s1 s2 s3, frames s1 s2 -> frames s2 s3 -> frames s1 s3.
Proof.
  intros s1 s2 s3 (N1 & H1 & T1 & t1 & E1 & F1) (N2 & H2 & T2 & t2 & E2 & F2).
  repeat split; try congruence.
  exists (t1 ++ t2); split.
  - rewrite E2, E1, app_assoc; reflexivity.
  - rewrite forallb_app, F1, F2; reflexivity.
Qed.

Lemma frames_emit : forall e s, net_event e = true -> frames s (emit e s).
Proof. intros e s He; repeat split; exists [e]; simpl; rewrite He; auto. Qed.

Lemma frames_set_net : forall o s, frames s (set_net o s).
Proof. intros o s; repeat split; exists []; rewrite app_nil_r; auto. Qed.

Lemma Frames_ret : forall A (a : A), Frames (ret a).
Proof. intros A a s x s1 E; injection E as <- <-; apply frames_refl. Qed.

Lemma Frames_raise : forall A e, Frames (@raise A e).
Proof. intros A e s x s1 E; injection E as <- <-; apply frames_refl. Qed.

Lemma Frames_log : forall l m, Frames (log l m).
Proof. intros l m s x s1 E; injection E as <- <-; apply frames_emit; reflexivity. Qed.

Lemma Frames_bind : forall A B (m : M A) (k : A -> M B),
  Frames m -> (forall a, Frames (k a)) -> Frames (bind m k).
Proof.
  intros A B m k Hm Hk s x s1 E; unfold bind in E.
  destruct (m s) as [[a|e] s0] eqn:Em.
  - eapply frames_trans; [eapply Hm; eassumption | eapply Hk; eassumption].
  - injection E as <- <-; eapply Hm; eassumption.
Qed.

Lemma Frames_post : forall p r, Frames (post p r).
Proof.
  intros p r s x s1 E; unfold post in E.
  destruct (net s) as [|[res|] rest]; injection E as <- <-.
  - apply frames_emit; reflexivity.
  - apply (frames_trans _ (emit (EPost p r) s)); [apply frames_emit; reflexivity | apply frames_set_net].
  - apply (frames_trans _ (emit (EPost p r) s)); [apply frames_emit; reflexivity | apply frames_set_net].
Qed.

Lemma Frames_invoke_attempts : forall A n (op : M A),
  Frames op -> Frames (invoke_attempts n op).
Proof.
  intros A n; induction n as [|n IH]; intros op Hop s x s1 E; simpl in E;
    destruct (op s) as [[a|[]] s0] eqn:Eo;
    try (injection E as <- <-; eapply Hop; eassumption).
  destruct n as [|k].
  - injection E as <- <-; eapply Hop; eassumption.
  - eapply frames_trans; [eapply Hop; eassumption | eapply IH; eassumption].
Qed.

Lemma Frames_invoke : forall A (op : M A), Frames op -> Frames (invoke op).
Proof. intros A op Hop s x s1 E; eapply Frames_invoke_attempts; eassumption. Qed.

Lemma Frames_check_response : forall T (parse : Body -> T) p res,
  Frames (check_response parse p res).
Proof.
  intros T parse p res; unfold check_response.
  destruct (negb (status_code res =? 200)); [apply Frames_ret|].
  destruct (content_type res) as [ct|].
  - destruct (negb (ct =? PROTOBUF)%string);
      [apply Frames_bind; [apply Frames_log | intros; apply Frames_ret] | apply Frames_ret].
  - apply Frames_bind; [apply Frames_log | intros; apply Frames_ret].
Qed.

Lemma Frames_request : forall T (parse : Body -> T) p req retry,
  Frames (_request parse p req retry).
Proof.
  intros T parse p req retry; unfold _request; apply Frames_bind.
  - destruct retry; [apply Frames_invoke|]; apply Frames_post.
  - intros; apply Frames_check_response.
Qed.

(** Requests raise nothing but [ConnectionError]. *)
Definition Raises_only_connection_error {A} (m : M A) : Prop :=
  forall s e s1, m s = (Exc e, s1) -> e = RequestsConnectionError.

Lemma request_raises_only_connection_error : forall T (parse : Body -> T) p req retry,
  Raises_only_connection_error (_request parse p req retry).
Proof.
  intros T parse p req retry s e s1 E; unfold _request, bind in E.
  destruct ((if retry then invoke (post p req) else post p req) s)
    as [[res|e0] s0] eqn:Ep.
  - unfold check_response, log, modify, bind, ret in E.
    destruct (negb (status_code res =? 200)); [discriminate|].
    destruct (content_type res) as [ct|];
      [destruct (negb (ct =? PROTOBUF)%string)|]; discriminate.
  - injection E as -> _.
    assert (Hpost : forall s2 e2 s3, post p req s2 = (Exc e2, s3) -> e2 = RequestsConnectionError).
    { intros s2 e2 s3 Ep2; unfold post in Ep2.
      destruct (net s2) as [|[]]; congruence. }
    destruct retry; [|eapply Hpost; eassumption].
    unfold invoke in Ep; revert s0 Ep; generalize (max_tries s) as n.
    intro n; revert s; induction n as [|n IH]; intros s s0 Ep; simpl in Ep;
      destruct (post p req s) as [[a|e1] s2] eqn:E2; simpl in Ep; try discriminate;
      assert (e1 = RequestsConnectionError) by (eapply Hpost; eassumption); subst e1.
    + congruence.
    + destruct n; [congruence | eapply IH; eassumption].
Qed.

Lemma posts_app : forall t1 t2, posts (t1 ++ t2) = posts t1 ++ posts t2.
Proof. induction t1 as [|[] t1 IH]; intros; simpl; rewrite ?IH; auto. Qed.

Lemma stores_app : forall t1 t2, stores (t1 ++ t2) = stores t1 ++ stores t2.
Proof. induction t1 as [|[] t1 IH]; intros; simpl; rewrite ?IH; auto. Qed.

Lemma heartbeat_starts_app : forall t1 t2,
  heartbeat_starts (t1 ++ t2) = (heartbeat_starts t1 + heartbeat_starts t2)%nat.
Proof. induction t1 as [|[] t1 IH]; intros; simpl; rewrite ?IH; auto. Qed.

Lemma net_events_no_stores : forall t, forallb net_event t = true -> stores t = [].
Proof. induction t as [|[] t IH]; simpl; intros; try discriminate; auto. Qed.

Lemma net_events_no_starts : forall t, forallb net_event t = true -> heartbeat_starts t = 0%nat.
Proof. induction t as [|[] t IH]; simpl; intros; try discriminate; auto. Qed.

Lemma frames_stores : forall s s1, frames s s1 -> stores (trace s1) = stores (trace s).
Proof.
  intros s s1 (_ & _ & _ & t & -> & F).
  rewrite stores_app, (net_events_no_stores t F), app_nil_r; reflexivity.
Qed.

Lemma frames_starts : forall s s1, frames s s1 ->
  heartbeat_starts (trace s1) = heartbeat_starts (trace s).
Proof.
  intros s s1 (_ & _ & _ & t & -> & F).
  rewrite heartbeat_starts_app, (net_events_no_starts t F); lia.
Qed.

(** ** Claims *)

(** C6: in the shared request helper, a non-success status code, a missing
    [content-type] header and a [content-type] other than
    [application/protobuf] all give the same absent result, whatever the
    retry policy did to obtain the response; only status 200 with the exact
    protobuf content type gives a parsed response. *)
Theorem request_soft_failures_are_no_response :
  forall T (parse : Body -> T) (api_path : string) (req : Req) (retry : bool)
    (s : State) (res : Response) (s1 : State),
    (if retry then invoke (post api_path req) else post api_path req) s = (Ok res, s1) ->
    (status_code res <> 200 -> fst (_request parse api_path req retry s) = Ok None) /\
    (content_type res = None -> fst (_request parse api_path req retry s) = Ok None) /\
    (forall ct, content_type res = Some ct -> ct <> PROTOBUF ->
       fst (_request parse api_path req retry s) = Ok None) /\
    (status_code res = 200 -> content_type res = Some PROTOBUF ->
       fst (_request parse api_path req retry s) = Ok (Some (parse (content res)))).
Proof.
  intros T parse api_path req retry s res s1 Hres.
  unfold _request, bind; rewrite Hres; unfold check_response.
  repeat split.
  - intros Hst; apply Z.eqb_neq in Hst; rewrite Hst; reflexivity.
  - intros Hct; destruct (negb (status_code res =? 200)); [reflexivity|].
    rewrite Hct; reflexivity.
  - intros ct Hct Hne; destruct (negb (status_code res =? 200)); [reflexivity|].
    rewrite Hct; apply String.eqb_neq in Hne; rewrite Hne; reflexivity.
  - intros Hst Hct; rewrite Hst, Hct; reflexivity.
Qed.

Definition ok_response (b : Body) : Response := mkResponse 200 (Some PROTOBUF) b.

Lemma request_soft_failures_are_no_response_witness :
  post PATH_GET_RUN (GetRunRequest None 1)
    (mkState None false 1 [Responded (mkResponse 503 (Some PROTOBUF) BDeleteNode)] [])
  = (Ok (mkResponse 503 (Some PROTOBUF) BDeleteNode),
     mkState None false 1 [] [EPost PATH_GET_RUN (GetRunRequest None 1)]) /\
  fst (_request parse_GetRunResponse PATH_GET_RUN (GetRunRequest None 1) false
    (mkState None false 1 [Responded (mkResponse 503 (Some PROTOBUF) BDeleteNode)] []))
  = Ok None.
Proof.
  split; [reflexivity|].
  apply (proj1 (request_soft_failures_are_no_response _ parse_GetRunResponse PATH_GET_RUN
    (GetRunRequest None 1) false
    (mkState None false 1 [Responded (mkResponse 503 (Some PROTOBUF) BDeleteNode)] [])
    (mkResponse 503 (Some PROTOBUF) BDeleteNode)
    (mkState None false 1 [] [EPost PATH_GET_RUN (GetRunRequest None 1)]) eq_refl)).
  simpl; discriminate.
Defined.

(** C4: when the registration request yields a response, [create_node]
    stores the assigned node id, starts the heartbeat sender and returns the
    id; when it yields no response, [create_node] returns [None], stores no
    identity and does not start the heartbeat sender. *)
Theorem create_node_stores_identity_and_starts_heartbeat :
  forall s res s1,
    _request parse_CreateNodeResponse PATH_CREATE_NODE
      (CreateNodeRequest HEARTBEAT_DEFAULT_INTERVAL) true s = (Ok res, s1) ->
    match res with
    | Some r =>
        fst (create_node s) = Ok (Some (CreateNodeResponse_node r)) /\
        node (snd (create_node s)) = Some (CreateNodeResponse_node r) /\
        hb_running (snd (create_node s)) = true /\
        heartbeat_starts (trace (snd (create_node s))) = S (heartbeat_starts (trace s))
    | None =>
        create_node s = (Ok None, s1) /\
        node s1 = node s /\ hb_running s1 = hb_running s /\
        heartbeat_starts (trace s1) = heartbeat_starts (trace s)
    end.
Proof.
  intros s res s1 Hreq.
  pose proof (Frames_request _ _ _ _ _ s _ _ Hreq) as Hfr.
  assert (Hc : create_node s =
    match res with
    | None => (Ok None, s1)
    | Some r => (Ok (Some (CreateNodeResponse_node r)),
        set_hb_running true (emit EHeartbeatStart (set_node (Some (CreateNodeResponse_node r)) s1)))
    end).
  { unfold create_node, bind; rewrite Hreq; destruct res; reflexivity. }
  rewrite Hc; destruct res as [r|].
  - simpl; repeat split.
    rewrite heartbeat_starts_app, (frames_starts _ _ Hfr); simpl; lia.
  - pose proof (frames_starts _ _ Hfr) as Hs; destruct Hfr as (N & H & _).
    repeat split; auto.
Qed.

Lemma create_node_stores_identity_and_starts_heartbeat_witness :
  _request parse_CreateNodeResponse PATH_CREATE_NODE
    (CreateNodeRequest HEARTBEAT_DEFAULT_INTERVAL) true
    (mkState None false 3 [Responded (ok_response (BCreateNode (mkCreateNodeResponse 7)))] [])
  = (Ok (Some (mkCreateNodeResponse 7)),
     mkState None false 3 [] [EPost PATH_CREATE_NODE (CreateNodeRequest HEARTBEAT_DEFAULT_INTERVAL)]) /\
  fst (create_node
    (mkState None false 3 [Responded (ok_response (BCreateNode (mkCreateNodeResponse 7)))] []))
  = Ok (Some 7).
Proof.
  split; [reflexivity|].
  exact (proj1 (create_node_stores_identity_and_starts_heartbeat
    (mkState None false 3 [Responded (ok_response (BCreateNode (mkCreateNodeResponse 7)))] [])
    (Some (mkCreateNodeResponse 7))
    (mkState None false 3 [] [EPost PATH_CREATE_NODE (CreateNodeRequest HEARTBEAT_DEFAULT_INTERVAL)])
    eq_refl)).
Defined.

Lemma check_response_posts : forall T (parse : Body -> T) p res s,
  posts (trace (snd (check_response parse p res s))) = posts (trace s).
Proof.
  intros T parse p res s; unfold check_response.
  destruct (negb (status_code res =? 200)); [reflexivity|].
  destruct (content_type res) as [ct|];
    [destruct (negb (ct =? PROTOBUF)%string)|]; simpl;
    rewrite ?posts_app; simpl; rewrite ?app_nil_r; reflexivity.
Qed.

(** C10: when the request of [get_run] or [get_fab] yields no response,
    neither raises nor returns [None]: [get_run] returns the empty run
    carrying the requested [run_id], [get_fab] the fab with empty hash and
    empty content, values that a genuine response carrying empty metadata
    produces as well. *)
Theorem get_run_get_fab_no_response_sentinels :
  forall s run_id fab_hash,
    (forall s1,
       _request parse_GetRunResponse PATH_GET_RUN (GetRunRequest (node s) run_id) true s
         = (Ok None, s1) ->
       get_run run_id s = (Ok (Run_create_empty run_id), s1) /\
       Run_run_id (Run_create_empty run_id) = run_id /\
       Run_create_empty run_id =
         run_from_proto (GetRunResponse_run (mkGetRunResponse (mkRunProto run_id "" "" "")))) /\
    (forall s1,
       _request parse_GetFabResponse PATH_GET_FAB (GetFabRequest (node s) fab_hash run_id) true s
         = (Ok None, s1) ->
       get_fab fab_hash run_id s = (Ok (mkFab "" []), s1) /\
       mkFab "" [] =
         mkFab (FabProto_hash_str (GetFabResponse_fab (mkGetFabResponse (mkFabProto "" []))))
               (FabProto_content (GetFabResponse_fab (mkGetFabResponse (mkFabProto "" []))))).
Proof.
  intros s run_id fab_hash; split; intros s1 Hreq.
  - unfold get_run, get_node, bind; simpl; rewrite Hreq; auto.
  - unfold get_fab, get_node, bind; simpl; rewrite Hreq; auto.
Qed.

Lemma get_run_get_fab_no_response_sentinels_witness :
  _request parse_GetRunResponse PATH_GET_RUN (GetRunRequest None 5) true
    (mkState None false 1 [Responded (mkResponse 404 None BDeleteNode)] [])
  = (Ok None, mkState None false 1 [] [EPost PATH_GET_RUN (GetRunRequest None 5)]) /\
  get_run 5 (mkState None false 1 [Responded (mkResponse 404 None BDeleteNode)] [])
  = (Ok (Run_create_empty 5), mkState None false 1 [] [EPost PATH_GET_RUN (GetRunRequest None 5)]).
Proof.
  split; [reflexivity|].
  exact (proj1 (proj1 (get_run_get_fab_no_response_sentinels
    (mkState None false 1 [Responded (mkResponse 404 None BDeleteNode)] []) 5 "h")
    (mkState None false 1 [] [EPost PATH_GET_RUN (GetRunRequest None 5)]) eq_refl)).
Defined.

(** C7: for every configuration, the [verify] setting is [True] or the
    certificate path given as a string, never [False] ([insecure] plays no
    part), and passing authentication keys logs an error. *)
Theorem connection_setup_never_disables_verification :
  forall (K : Type) (insecure : bool) (root_certificates : option RootCertificates)
         (authentication_keys : option K),
    fst (connection_setup insecure root_certificates authentication_keys) <> VerifyBool false /\
    (fst (connection_setup insecure root_certificates authentication_keys) = VerifyBool true \/
     exists p, root_certificates = Some (RCStr p) /\
       fst (connection_setup insecure root_certificates authentication_keys) = VerifyPath p) /\
    (authentication_keys <> None ->
     In (ERROR, "Client authentication is not supported for this transport type.")
        (snd (connection_setup insecure root_certificates authentication_keys))).
Proof.
  intros K insecure rc keys.
  destruct rc as [[b|p]|]; destruct keys as [k|]; simpl;
    repeat split; try discriminate; try (intros H; exfalso; apply H; reflexivity);
    try (left; reflexivity); try (right; eexists; split; reflexivity);
    intros _; simpl; repeat (try (left; reflexivity); right).
Qed.

Lemma connection_setup_never_disables_verification_witness :
  Some tt <> None /\
  In (ERROR, "Client authentication is not supported for this transport type.")
     (snd (connection_setup false (Some (RCBytes [])) (Some tt))).
Proof.
  split; [discriminate|].
  apply (connection_setup_never_disables_verification unit false (Some (RCBytes [])) (Some tt)).
  discriminate.
Defined.

(** C5: with an identity, an invocation of the heartbeat probe posts exactly
    one request and never goes through the retry invoker; a response that
    fails the status or content-type checks makes it return [false], while
    an explicit negative acknowledgement ([success = false]) raises
    [RuntimeError] (escalated out of the probe) instead of returning. *)
Theorem send_node_heartbeat_single_shot :
  forall s n,
    node s = Some n ->
    posts (trace (snd (send_node_heartbeat s))) =
      posts (trace s) ++
        [(PATH_SEND_NODE_HEARTBEAT, SendNodeHeartbeatRequest n HEARTBEAT_DEFAULT_INTERVAL)] /\
    (forall res rest, net s = Responded res :: rest ->
       (status_code res <> 200 \/ content_type res <> Some PROTOBUF) ->
       fst (send_node_heartbeat s) = Ok false) /\
    (forall res rest, net s = Responded res :: rest ->
       status_code res = 200 -> content_type res = Some PROTOBUF ->
       success (parse_SendNodeHeartbeatResponse (content res)) = false ->
       fst (send_node_heartbeat s) = Exc RuntimeError).
Proof.
  intros s n Hn.
  unfold send_node_heartbeat, get_node, bind; rewrite Hn.
  unfold _request, bind, post.
  split; [|split].
  - destruct (net s) as [|[res|] rest]; simpl; try (rewrite posts_app; reflexivity).
    destruct (check_response parse_SendNodeHeartbeatResponse PATH_SEND_NODE_HEARTBEAT res
                (set_net rest (emit (EPost PATH_SEND_NODE_HEARTBEAT
                   (SendNodeHeartbeatRequest n HEARTBEAT_DEFAULT_INTERVAL)) s)))
      as [[r|e] s2] eqn:Ec;
      pose proof (check_response_posts _ parse_SendNodeHeartbeatResponse
        PATH_SEND_NODE_HEARTBEAT res
        (set_net rest (emit (EPost PATH_SEND_NODE_HEARTBEAT
                   (SendNodeHeartbeatRequest n HEARTBEAT_DEFAULT_INTERVAL)) s))) as Hp;
      rewrite Ec in Hp; simpl in Hp; rewrite posts_app in Hp.
    + destruct r as [r|]; [destruct (success r)|]; simpl; exact Hp.
    + exact Hp.
  - intros res rest Hnet Hbad; rewrite Hnet; simpl; unfold check_response.
    destruct (Z.eqb_spec (status_code res) 200) as [E|E]; simpl; [|reflexivity].
    destruct Hbad as [Hbad|Hbad]; [contradiction|].
    destruct (content_type res) as [ct|]; simpl; [|reflexivity].
    destruct (String.eqb_spec ct PROTOBUF) as [->|]; simpl; [contradiction|reflexivity].
  - intros res rest Hnet Hst Hct Hsucc; rewrite Hnet; simpl; unfold check_response.
    rewrite Hst, Hct; simpl; rewrite Hsucc; reflexivity.
Qed.

Lemma send_node_heartbeat_single_shot_witness :
  node (mkState (Some 7) true 4
    [Responded (ok_response (BSendNodeHeartbeat (mkSendNodeHeartbeatResponse false)))] [])
    = Some 7 /\
  fst (send_node_heartbeat (mkState (Some 7) true 4
    [Responded (ok_response (BSendNodeHeartbeat (mkSendNodeHeartbeatResponse false)))] []))
    = Exc RuntimeError.
Proof.
  split; [reflexivity|].
  apply (proj2 (proj2 (send_node_heartbeat_single_shot (mkState (Some 7) true 4
    [Responded (ok_response (BSendNodeHeartbeat (mkSendNodeHeartbeatResponse false)))] [])
    7 eq_refl)) (ok_response (BSendNodeHeartbeat (mkSendNodeHeartbeatResponse false))) []);
    reflexivity.
Defined.

(** C3: [receive] returns [None] without raising when there is no
    identity, when the pulled message list is empty, and when the first
    message is addressed to another node; the last two end in the very same
    result and state, right after the pull-messages request, as if nothing
    were pending. *)
Theorem receive_absent_without_session_or_message :
  forall s,
    (node s = None ->
     receive s = (Ok None, emit (ELog ERROR "Node instance missing") s)) /\
    (forall n r s1,
       node s = Some n ->
       _request parse_PullMessagesResponse PATH_PULL_MESSAGES (PullMessagesRequest n) true s
         = (Ok (Some r), s1) ->
       (messages_list r = [] -> receive s = (Ok None, s1)) /\
       (forall m rest, messages_list r = m :: rest ->
          dst_node_id (metadata m) <> n -> receive s = (Ok None, s1))).
Proof.
  intros s; split.
  - intros Hn; unfold receive, get_node, bind; rewrite Hn; reflexivity.
  - intros n r s1 Hn Hreq; unfold receive, get_node, bind; rewrite Hn, Hreq.
    unfold valid_message_proto; split.
    + intros Hm; rewrite Hm; reflexivity.
    + intros m rest Hm Hdst; rewrite Hm.
      apply Z.eqb_neq in Hdst; rewrite Hdst; reflexivity.
Qed.

Definition pull_messages_state (msgs : list MessageProto) : State :=
  mkState (Some 7) true 3
    [Responded (ok_response (BPullMessages (mkPullMessagesResponse msgs
       [mkObjectTree "m1" []])))] [].

Lemma receive_absent_without_session_or_message_witness :
  node (pull_messages_state [mkMessageProto (mkMetadata "m1" 1 8)]) = Some 7 /\
  receive (pull_messages_state [mkMessageProto (mkMetadata "m1" 1 8)])
  = (Ok None, mkState (Some 7) true 3 []
       [EPost PATH_PULL_MESSAGES (PullMessagesRequest 7)]).
Proof.
  split; [reflexivity|].
  apply (proj2 (proj2 (receive_absent_without_session_or_message
    (pull_messages_state [mkMessageProto (mkMetadata "m1" 1 8)]))
    7 (mkPullMessagesResponse [mkMessageProto (mkMetadata "m1" 1 8)] [mkObjectTree "m1" []])
    (mkState (Some 7) true 3 [] [EPost PATH_PULL_MESSAGES (PullMessagesRequest 7)])
    eq_refl eq_refl) (mkMessageProto (mkMetadata "m1" 1 8)) [] eq_refl).
  simpl; discriminate.
Defined.

(** C2 (code bug): a pull-object request answered with HTTP 500 makes the
    pull fail with [ValueError]; [receive] logs it, but then reads the
    unbound local [all_object_contents] and raises [UnboundLocalError] into
    its caller instead of returning [None]. *)
Definition pull_failure_state : State :=
  mkState (Some 7) true 3
    [Responded (ok_response (BPullMessages (mkPullMessagesResponse
       [mkMessageProto (mkMetadata "m1" 1 7)] [mkObjectTree "m1" []])));
     Responded (mkResponse 500 None BDeleteNode)] [].

Theorem receive_pull_failure_raises :
  fst (receive pull_failure_state) = Exc UnboundLocalError /\
  In (ELog ERROR "Pulling objects failed. Potential irrecoverable error: ValueError")
     (trace (snd (receive pull_failure_state))).
Proof. split; [reflexivity | simpl; tauto]. Qed.

(** The first event a request adds is its first post. *)
Lemma post_trace : forall p req s x s1,
  post p req s = (x, s1) -> trace s1 = trace s ++ [EPost p req].
Proof.
  intros p req s x s1 E; unfold post in E.
  destruct (net s) as [|[res|] rest]; injection E as _ <-; reflexivity.
Qed.

Lemma invoke_attempts_posts_first : forall n p req s x s1,
  invoke_attempts n (post p req) s = (x, s1) ->
  exists t, trace s1 = trace s ++ EPost p req :: t.
Proof.
  intros n p req; induction n as [|n IH]; intros s x s1 E; simpl in E;
    destruct (post p req s) as [x0 s0] eqn:Ep;
    pose proof (post_trace _ _ _ _ _ Ep) as Tp.
  - destruct x0 as [a|[]]; injection E as _ <-; exists []; exact Tp.
  - destruct x0 as [a|[]]; try (injection E as _ <-; exists []; exact Tp).
    destruct n as [|m]; [injection E as _ <-; exists []; exact Tp|].
    apply IH in E; destruct E as [t Et].
    exists (EPost p req :: t); rewrite Et, Tp, <- app_assoc; reflexivity.
Qed.

Lemma request_posts_first : forall T (parse : Body -> T) p req retry s x s1,
  _request parse p req retry s = (x, s1) ->
  exists t, trace s1 = trace s ++ EPost p req :: t.
Proof.
  intros T parse p req retry s x s1 E; unfold _request, bind in E.
  destruct ((if retry then invoke (post p req) else post p req) s) as [[res|e] s0] eqn:Ep.
  - assert (H0 : exists t, trace s0 = trace s ++ EPost p req :: t).
    { destruct retry.
      - eapply invoke_attempts_posts_first; exact Ep.
      - exists []; eapply post_trace; exact Ep. }
    destruct H0 as [t0 E0].
    destruct (Frames_check_response _ parse p res s0 x s1 E) as (_ & _ & _ & t1 & E1 & _).
    exists (t0 ++ t1); rewrite E1, E0, <- app_assoc; reflexivity.
  - injection E as _ <-; destruct retry.
    + eapply invoke_attempts_posts_first; exact Ep.
    + exists []; eapply post_trace; exact Ep.
Qed.

(** C1 (as the code does it): with an identity, [delete_node] stops the
    heartbeat sender, then posts the unregister request; the identity is
    cleared only when that request yields a response and kept when it yields
    none. *)
Theorem delete_node_stops_heartbeat_then_unregisters :
  forall s n,
    node s = Some n ->
    (exists t, trace (snd (delete_node s)) =
       trace s ++ EHeartbeatStop :: EPost PATH_DELETE_NODE (DeleteNodeRequest n) :: t) /\
    hb_running (snd (delete_node s)) = false /\
    (forall res s1,
       _request parse_empty PATH_DELETE_NODE (DeleteNodeRequest n) true
         (snd (heartbeat_stop s)) = (Ok res, s1) ->
       fst (delete_node s) = Ok tt /\
       node (snd (delete_node s)) = match res with Some _ => None | None => Some n end).
Proof.
  intros s n Hn.
  assert (Hd : delete_node s =
    match _request parse_empty PATH_DELETE_NODE (DeleteNodeRequest n) true
            (snd (heartbeat_stop s)) with
    | (Ok None, s1) => (Ok tt, s1)
    | (Ok (Some _), s1) => (Ok tt, set_node None s1)
    | (Exc e, s1) => (Exc e, s1)
    end).
  { unfold delete_node, get_node, bind; rewrite Hn; simpl.
    destruct (_request _ _ _ _ _) as [[[]|] ?]; reflexivity. }
  destruct (_request parse_empty PATH_DELETE_NODE (DeleteNodeRequest n) true
              (snd (heartbeat_stop s))) as [x s1] eqn:Er.
  pose proof (request_posts_first _ _ _ _ _ _ _ _ Er) as [t Et].
  destruct (Frames_request _ _ _ _ _ _ _ _ Er) as (N1 & H1 & _).
  simpl in Et, N1, H1.
  assert (Tr : trace (snd (delete_node s)) = trace s1).
  { rewrite Hd; destruct x as [[[]|]|]; reflexivity. }
  assert (Hb : hb_running (snd (delete_node s)) = hb_running s1).
  { rewrite Hd; destruct x as [[[]|]|]; reflexivity. }
  split; [|split].
  - exists t; rewrite Tr, Et, <- app_assoc; reflexivity.
  - rewrite Hb, H1; reflexivity.
  - intros res s1' E; injection E as -> <-; rewrite Hd.
    destruct res as [[]|]; simpl; auto; rewrite N1, Hn; auto.
Qed.

Lemma delete_node_stops_heartbeat_then_unregisters_witness :
  node (mkState (Some 7) true 3 [Responded (ok_response BDeleteNode)] []) = Some 7 /\
  hb_running (snd (delete_node (mkState (Some 7) true 3 [Responded (ok_response BDeleteNode)] [])))
    = false.
Proof.
  split; [reflexivity|].
  exact (proj1 (proj2 (delete_node_stops_heartbeat_then_unregisters
    (mkState (Some 7) true 3 [Responded (ok_response BDeleteNode)] []) 7 eq_refl))).
Defined.

(** C1 refuted: an unregister request answered with HTTP 500 leaves the
    identity stored. *)
Lemma delete_node_keeps_identity_without_response :
  node (snd (delete_node (mkState (Some 7) true 3
          [Responded (mkResponse 500 None BDeleteNode)] []))) = Some 7.
Proof. reflexivity. Qed.

(** ** The push path of [send] *)

Lemma Frames_push_object_rest : forall request, Frames (push_object_rest request).
Proof.
  intros request; unfold push_object_rest; apply Frames_bind;
    [apply Frames_request | intros [?|]; [apply Frames_ret | apply Frames_raise]].
Qed.

Lemma Frames_push_fn : forall nd run i b,
  Frames (make_push_object_fn_rest push_object_rest nd run i b).
Proof. intros; apply Frames_push_object_rest. Qed.

Lemma store_once_spec : forall fn i b s,
  (forall i' b', Frames (fn i' b')) ->
  exists ok s1, store_once fn i b s = (Ok ok, s1) /\
    stores (trace s1) = stores (trace s) ++ [i].
Proof.
  intros fn i b s Hfn; unfold store_once.
  destruct (fn i b (emit (EStore i) s)) as [[u|e] s1] eqn:E;
    apply Hfn in E; apply frames_stores in E; simpl in E;
    rewrite stores_app in E; simpl in E; eexists _, s1; split; eauto.
Qed.

Definition present (objects : list (string * bytes)) (i : string) : bool :=
  match assoc_lookup i objects with Some _ => true | None => false end.

Lemma push_each_stores : forall objects fn ids s,
  (forall i b, Frames (fn i b)) ->
  (exists failed, fst (push_each objects fn ids s) = Ok failed) /\
  stores (trace (snd (push_each objects fn ids s))) =
    stores (trace s) ++ filter (present objects) ids.
Proof.
  intros objects fn ids; induction ids as [|i ids IH]; intros s Hfn.
  - simpl; rewrite app_nil_r; eauto.
  - simpl; unfold present at 1.
    destruct (assoc_lookup i objects) as [b|] eqn:El; [|apply IH; exact Hfn].
    destruct (store_once_spec fn i b s Hfn) as (ok & s1 & Es & Ts).
    unfold bind; rewrite Es.
    destruct (IH s1 Hfn) as [[failed Ef] Tf].
    destruct (push_each objects fn ids s1) as [[f|e] s2]; simpl in Ef |- *;
      [|discriminate].
    split; [eauto|]; simpl in Tf; rewrite Tf, Ts, <- app_assoc; reflexivity.
Qed.

Lemma filter_present_all : forall objects ids,
  (forall i, In i ids -> assoc_lookup i objects <> None) ->
  filter (present objects) ids = ids.
Proof.
  intros objects ids H; induction ids as [|i ids IH]; [reflexivity|].
  simpl; unfold present at 1.
  destruct (assoc_lookup i objects) eqn:E.
  - rewrite IH; auto; intros j Hj; apply H; right; exact Hj.
  - exfalso; apply (H i); [left; reflexivity | exact E].
Qed.

(** C8: after a push-messages request answered with [r], [send] uploads
    (through the push path, one store each) exactly the distinct object ids
    that [r] declares missing for the message's id, among the message's
    objects, and nothing else; every declared id being one of the message's
    objects, these are exactly the declared ids.  Without a response no
    upload is attempted. *)
Theorem send_uploads_exactly_declared_missing :
  forall message s n res s1,
    node s = Some n ->
    _request parse_PushMessagesResponse PATH_PUSH_MESSAGES
      (PushMessagesRequest n [message_to_proto_without_content message]
         [get_object_tree message]) true s = (Ok res, s1) ->
    match res with
    | None => stores (trace (snd (send message s))) = stores (trace s)
    | Some r =>
        stores (trace (snd (send message s))) =
          stores (trace s) ++
          filter (present (get_all_nested_objects message))
            (to_set (objects_to_push_of (msg_object_id message) r)) /\
        ((forall i, In i (objects_to_push_of (msg_object_id message) r) ->
            assoc_lookup i (get_all_nested_objects message) <> None) ->
         stores (trace (snd (send message s))) =
           stores (trace s) ++ to_set (objects_to_push_of (msg_object_id message) r))
    end.
Proof.
  intros message s n res s1 Hn Hreq.
  pose proof (frames_stores _ _ (Frames_request _ _ _ _ _ _ _ _ Hreq)) as T1.
  assert (Hsend : stores (trace (snd (send message s))) =
    match res with
    | None => stores (trace s1)
    | Some r =>
        stores (trace s1) ++
        filter (present (get_all_nested_objects message))
          (to_set (objects_to_push_of (msg_object_id message) r))
    end).
  { unfold send, get_node, bind; rewrite Hn, Hreq.
    destruct res as [r|]; [|reflexivity].
    unfold log, modify; simpl; unfold send_push.
    destruct (objects_to_push r) as [|kv kvs] eqn:Eo.
    - unfold objects_to_push_of; rewrite Eo; simpl.
      rewrite stores_app, !app_nil_r; reflexivity.
    - unfold try_except, bind, push_objects.
      set (s2 := emit (ELog INFO _) s1).
      destruct (push_each_stores (get_all_nested_objects message)
        (make_push_object_fn_rest push_object_rest n
           (run_id (metadata (message_to_proto_without_content message))))
        (to_set (objects_to_push_of (msg_object_id message) r)) s2
        (Frames_push_fn _ _)) as [[failed Ef] Tp].
      destruct (push_each _ _ _ s2) as [[f|e] s3]; simpl in Ef, Tp; [|discriminate].
      simpl; rewrite stores_app, Tp; unfold s2; simpl.
      rewrite stores_app; simpl; rewrite !app_nil_r; reflexivity. }
  rewrite Hsend, T1; destruct res as [r|]; [|reflexivity].
  split; [reflexivity|].
  intros Hall; f_equal; apply filter_present_all.
  intros i Hi; apply Hall; unfold to_set in Hi; apply nodup_In in Hi; exact Hi.
Qed.

Definition push_message : Message :=
  mkMessage (mkMetadata "" 1 0) "m1" [("m1", []); ("c1", []); ("c2", [])]
    (mkObjectTree "m1" [mkObjectTree "c1" []; mkObjectTree "c2" []]).

Definition push_state : State :=
  mkState (Some 7) true 3
    [Responded (ok_response (BPushMessages (mkPushMessagesResponse
       [("m1", ["c2"; "c1"; "c2"])])));
     Responded (ok_response BPushObject); Responded (ok_response BPushObject)] [].

Lemma send_uploads_exactly_declared_missing_witness :
  node push_state = Some 7 /\
  stores (trace (snd (send push_message push_state))) = ["c1"; "c2"].
Proof.
  split; [reflexivity|].
  exact (proj1 (send_uploads_exactly_declared_missing push_message push_state 7
    (Some (mkPushMessagesResponse [("m1", ["c2"; "c1"; "c2"])]))
    (mkState (Some 7) true 3
       [Responded (ok_response BPushObject); Responded (ok_response BPushObject)]
       [EPost PATH_PUSH_MESSAGES (PushMessagesRequest 7
          [message_to_proto_without_content push_message]
          [get_object_tree push_message])])
    eq_refl eq_refl)).
Defined.

(** ** Teardown of the session scope *)

Lemma invoke_attempts_one : forall A (op : M A) s, invoke_attempts 1 op s = op s.
Proof. intros A op s; simpl; destruct (op s) as [[a|[]] s0]; reflexivity. Qed.

Lemma request_single_attempt_posts : forall T (parse : Body -> T) p req s x s1,
  max_tries s = 1%nat ->
  _request parse p req true s = (x, s1) ->
  posts (trace s1) = posts (trace s) ++ [(p, req)].
Proof.
  intros T parse p req s x s1 Hm E; unfold _request, bind, invoke in E.
  rewrite Hm, invoke_attempts_one in E.
  destruct (post p req s) as [[res|e] s0] eqn:Ep;
    pose proof (post_trace _ _ _ _ _ Ep) as Tp.
  - pose proof (check_response_posts _ parse p res s0) as Hc; rewrite E in Hc.
    simpl in Hc; rewrite Hc, Tp, posts_app; reflexivity.
  - injection E as _ <-; rewrite Tp, posts_app; reflexivity.
Qed.

Lemma delete_node_unfold : forall s n,
  node s = Some n ->
  delete_node s =
    match _request parse_empty PATH_DELETE_NODE (DeleteNodeRequest n) true
            (snd (heartbeat_stop s)) with
    | (Ok None, s1) => (Ok tt, s1)
    | (Ok (Some _), s1) => (Ok tt, set_node None s1)
    | (Exc e, s1) => (Exc e, s1)
    end.
Proof.
  intros s n Hn; unfold delete_node, get_node, bind; rewrite Hn; simpl.
  destruct (_request _ _ _ _ _) as [[[]|] ?]; reflexivity.
Qed.

Lemma session_finally_ok : forall s, fst (session_finally s) = Ok tt.
Proof.
  intros s; unfold session_finally, try_except, get_node, bind.
  destruct (node s) as [n|] eqn:Hn; [|reflexivity].
  unfold modify; simpl.
  rewrite (delete_node_unfold (set_max_tries 1 s) n Hn).
  destruct (_request parse_empty PATH_DELETE_NODE (DeleteNodeRequest n) true
              (snd (heartbeat_stop (set_max_tries 1 s)))) as [[[]|e] s1] eqn:E;
    try reflexivity.
  apply request_raises_only_connection_error in E; subst e; reflexivity.
Qed.

Lemma session_finally_single_unregister : forall s n,
  node s = Some n ->
  max_tries (snd (session_finally s)) = 1%nat /\
  posts (trace (snd (session_finally s))) =
    posts (trace s) ++ [(PATH_DELETE_NODE, DeleteNodeRequest n)] /\
  exists t, trace (snd (session_finally s)) =
    trace s ++ EHeartbeatStop :: EPost PATH_DELETE_NODE (DeleteNodeRequest n) :: t.
Proof.
  intros s n Hn; unfold session_finally, try_except, get_node, bind; rewrite Hn.
  unfold modify; simpl.
  rewrite (delete_node_unfold (set_max_tries 1 s) n Hn).
  destruct (_request parse_empty PATH_DELETE_NODE (DeleteNodeRequest n) true
              (snd (heartbeat_stop (set_max_tries 1 s)))) as [x s1] eqn:E.
  pose proof (request_single_attempt_posts _ _ _ _ _ _ _ (eq_refl : max_tries (snd (heartbeat_stop (set_max_tries 1 s))) = 1%nat) E) as Hp.
  pose proof (request_posts_first _ _ _ _ _ _ _ _ E) as [t Et].
  destruct (Frames_request _ _ _ _ _ _ _ _ E) as (_ & _ & Hm & _).
  simpl in Hp, Et, Hm.
  assert (Hfin : forall s', trace s' = trace s1 -> max_tries s' = max_tries s1 ->
    max_tries s' = 1%nat /\
    posts (trace s') = posts (trace s) ++ [(PATH_DELETE_NODE, DeleteNodeRequest n)] /\
    exists t, trace s' =
      trace s ++ EHeartbeatStop :: EPost PATH_DELETE_NODE (DeleteNodeRequest n) :: t).
  { intros s' -> ->; split; [exact Hm|split].
    - rewrite Hp, posts_app; simpl; rewrite app_nil_r; reflexivity.
    - exists t; rewrite Et, <- app_assoc; reflexivity. }
  destruct x as [[[]|]|e]; simpl; try (apply Hfin; reflexivity).
  destruct e; apply Hfin; reflexivity.
Qed.

Lemma session_try_node : forall body s r1 s1,
  body s = (r1, s1) -> node (snd (session_try body s)) = node s1.
Proof.
  intros body s r1 s1 E; unfold session_try, try_except; rewrite E.
  destruct r1 as [|e]; [reflexivity|]; destruct (is_Exception e); reflexivity.
Qed.

(** C9 (as the code does it): an exception of class [Exception] raised in
    the session's scope is caught and logged (an [ERROR] log of the
    exception follows the scope's own events in the trace), the scope then
    ends normally;
    an exception outside [Exception] ([KeyboardInterrupt], [SystemExit])
    propagates after the teardown.  On exit with an identity, the retry
    budget is set to one before the final [delete_node], which therefore
    posts a single unregister request, and a [ConnectionError] of that
    teardown is swallowed. *)
Lemma session_finally_trace_prefix : forall s,
  exists t, trace (snd (session_finally s)) = trace s ++ t.
Proof.
  intros s; destruct (node s) as [n|] eqn:Hn.
  - destruct (session_finally_single_unregister s n Hn) as (_ & _ & t & Et).
    eexists; exact Et.
  - exists []; rewrite app_nil_r.
    unfold session_finally, try_except, get_node, bind; rewrite Hn; reflexivity.
Qed.

Theorem http_request_response_scope_catches_and_tears_down :
  forall body s r1 s1,
    body s = (r1, s1) ->
    ((forall e, r1 = Exc e -> is_Exception e = true) ->
       fst (http_request_response_scope body s) = Ok tt) /\
    (forall e, r1 = Exc e -> is_Exception e = true ->
       exists t, trace (snd (http_request_response_scope body s)) =
         trace s1 ++ ELog ERROR (exn_str e) :: t) /\
    (forall e, r1 = Exc e -> is_Exception e = false ->
       fst (http_request_response_scope body s) = Exc e) /\
    (forall n, node s1 = Some n ->
       max_tries (snd (http_request_response_scope body s)) = 1%nat /\
       posts (trace (snd (http_request_response_scope body s))) =
         posts (trace (snd (session_try body s))) ++
           [(PATH_DELETE_NODE, DeleteNodeRequest n)] /\
       exists t, trace (snd (http_request_response_scope body s)) =
         trace (snd (session_try body s)) ++
           EHeartbeatStop :: EPost PATH_DELETE_NODE (DeleteNodeRequest n) :: t).
Proof.
  intros body s r1 s1 Eb.
  assert (Hsc : http_request_response_scope body s =
    (fst (session_try body s), snd (session_finally (snd (session_try body s))))).
  { unfold http_request_response_scope.
    destruct (session_try body s) as [r s2]; simpl.
    pose proof (session_finally_ok s2) as Hf.
    destruct (session_finally s2) as [rf s3]; simpl in Hf; subst rf; reflexivity. }
  rewrite Hsc; simpl; split; [|split; [|split]].
  - intros Hexc; unfold session_try, try_except; rewrite Eb.
    destruct r1 as [[]|e]; [reflexivity|]; rewrite (Hexc e eq_refl); reflexivity.
  - intros e -> He.
    assert (Ht : session_try body s = (Ok tt, emit (ELog ERROR (exn_str e)) s1)).
    { unfold session_try, try_except; rewrite Eb, He; reflexivity. }
    rewrite Ht; cbn [snd].
    destruct (session_finally_trace_prefix (emit (ELog ERROR (exn_str e)) s1)) as [t Et].
    exists t; rewrite Et; cbn [trace emit]; rewrite <- app_assoc; reflexivity.
  - intros e -> He; unfold session_try, try_except; rewrite Eb, He; reflexivity.
  - intros n Hn.
    apply session_finally_single_unregister.
    rewrite (session_try_node body s r1 s1 Eb); exact Hn.
Qed.

Lemma http_request_response_scope_catches_and_tears_down_witness :
  @raise unit ValueError (mkState (Some 7) true 5 [Unreachable] [])
    = (Exc ValueError, mkState (Some 7) true 5 [Unreachable] []) /\
  fst (http_request_response_scope (raise ValueError)
         (mkState (Some 7) true 5 [Unreachable] [])) = Ok tt.
Proof.
  split; [reflexivity|].
  apply (proj1 (http_request_response_scope_catches_and_tears_down (raise ValueError)
    (mkState (Some 7) true 5 [Unreachable] []) (Exc ValueError)
    (mkState (Some 7) true 5 [Unreachable] []) eq_refl)).
  intros e E; injection E as <-; reflexivity.
Defined.

(** C9 refuted: a [KeyboardInterrupt] in the session's scope is not caught
    by [except Exception] and escapes the scope. *)
Lemma http_request_response_scope_propagates_keyboard_interrupt :
  fst (http_request_response_scope (raise KeyboardInterrupt)
         (mkState None false 3 [] [])) = Exc KeyboardInterrupt.
Proof. reflexivity. Qed.

(** ** The heartbeat probe runs only with an identity *)

Definition heartbeat_invariant (s : State) : Prop :=
  hb_running s = true -> node s <> None.

Lemma frames_heartbeat_invariant : forall s s1,
  frames s s1 -> heartbeat_invariant s -> heartbeat_invariant s1.
Proof.
  intros s s1 (N & H & _) Hi Hr; rewrite N; apply Hi; rewrite <- H; exact Hr.
Qed.

Lemma create_node_heartbeat_invariant : forall s,
  heartbeat_invariant s -> heartbeat_invariant (snd (create_node s)).
Proof.
  intros s Hi; unfold create_node, bind.
  destruct (_request parse_CreateNodeResponse PATH_CREATE_NODE
              (CreateNodeRequest HEARTBEAT_DEFAULT_INTERVAL) true s)
    as [[[r|]|e] s1] eqn:E; simpl;
    try (eapply frames_heartbeat_invariant; [eapply Frames_request; exact E | exact Hi]).
  intros _; discriminate.
Qed.

Lemma delete_node_heartbeat_invariant : forall s,
  heartbeat_invariant s -> heartbeat_invariant (snd (delete_node s)).
Proof.
  intros s Hi; destruct (node s) as [n|] eqn:Hn.
  - rewrite (delete_node_unfold s n Hn).
    destruct (_request parse_empty PATH_DELETE_NODE (DeleteNodeRequest n) true
                (snd (heartbeat_stop s))) as [x s1] eqn:E.
    destruct (Frames_request _ _ _ _ _ _ _ _ E) as (_ & H1 & _); simpl in H1.
    unfold heartbeat_invariant; destruct x as [[[]|]|e]; simpl; intros Hr;
      rewrite Hr in H1; discriminate.
  - unfold delete_node, get_node, bind, log, modify; rewrite Hn; simpl.
    intros Hr; apply Hi; exact Hr.
Qed.

(** With the REST transport, a heartbeat post that cannot connect raises
    [ConnectionError] out of the probe (no [try] around [post()] when
    [retry=False]). *)
Lemma send_node_heartbeat_connection_error_propagates :
  fst (send_node_heartbeat (mkState (Some 7) true 3 [Unreachable] []))
    = Exc RequestsConnectionError.
Proof. reflexivity. Qed.

(** * Further properties of the module *)

(** ** Operations that leave the session alone *)

Definition keeps (s s1 : State) : Prop :=
  node s1 = node s /\ hb_running s1 = hb_running s.

Definition Keeps {A} (m : M A) : Prop :=
  forall s x s1, m s = (x, s1) -> keeps s s1.

Lemma Keeps_of_Frames : forall A (m : M A), Frames m -> Keeps m.
Proof. intros A m Hm s x s1 E; destruct (Hm s x s1 E) as (N & H & _); split; auto. Qed.

Lemma Keeps_ret : forall A (a : A), Keeps (ret a).
Proof. intros; apply Keeps_of_Frames, Frames_ret. Qed.

Lemma Keeps_raise : forall A e, Keeps (@raise A e).
Proof. intros; apply Keeps_of_Frames, Frames_raise. Qed.

Lemma Keeps_log : forall l m, Keeps (log l m).
Proof. intros; apply Keeps_of_Frames, Frames_log. Qed.

Lemma Keeps_get_node : Keeps get_node.
Proof. intros s x s1 E; injection E as _ <-; split; reflexivity. Qed.

Lemma Keeps_request : forall T (parse : Body -> T) p req retry,
  Keeps (_request parse p req retry).
Proof. intros; apply Keeps_of_Frames, Frames_request. Qed.

Lemma Keeps_bind : forall A B (m : M A) (k : A -> M B),
  Keeps m -> (forall a, Keeps (k a)) -> Keeps (bind m k).
Proof.
  intros A B m k Hm Hk s x s1 E; unfold bind in E.
  destruct (m s) as [[a|e] s0] eqn:Em.
  - destruct (Hm _ _ _ Em) as [N1 H1]; destruct (Hk a _ _ _ E) as [N2 H2].
    split; congruence.
  - injection E as _ <-; eapply Hm; eassumption.
Qed.

Lemma Keeps_try_except : forall A p (m : M A) h,
  Keeps m -> (forall e, Keeps (h e)) -> Keeps (try_except p m h).
Proof.
  intros A p m h Hm Hh s x s1 E; unfold try_except in E.
  destruct (m s) as [[a|e] s0] eqn:Em.
  - injection E as _ <-; eapply Hm; eassumption.
  - destruct (Hm _ _ _ Em) as [N1 H1].
    destruct (p e); [destruct (Hh e _ _ _ E) as [N2 H2]; split; congruence|].
    injection E as _ <-; split; assumption.
Qed.

Lemma Keeps_pull_each : forall fetch ids,
  (forall i, Keeps (fetch i)) -> Keeps (pull_each fetch ids).
Proof.
  intros fetch ids Hf; induction ids as [|i ids IH]; simpl;
    [apply Keeps_ret|].
  apply Keeps_bind; [apply Hf|]; intros c.
  apply Keeps_bind; [exact IH|]; intros cs; apply Keeps_ret.
Qed.

Lemma Keeps_store_once : forall fn i b,
  (forall i' b', Keeps (fn i' b')) -> Keeps (store_once fn i b).
Proof.
  intros fn i b Hfn s x s1 E; unfold store_once in E.
  destruct (fn i b (emit (EStore i) s)) as [[u|e] s0] eqn:Ef;
    injection E as _ <-; destruct (Hfn _ _ _ _ _ Ef) as [N H]; split; assumption.
Qed.

Lemma Keeps_push_each : forall objects fn ids,
  (forall i b, Keeps (fn i b)) -> Keeps (push_each objects fn ids).
Proof.
  intros objects fn ids Hfn; induction ids as [|i ids IH]; simpl;
    [apply Keeps_ret|].
  destruct (assoc_lookup i objects) as [b|]; [|exact IH].
  apply Keeps_bind; [apply Keeps_store_once; exact Hfn|]; intros ok.
  apply Keeps_bind; [exact IH|]; intros failed; apply Keeps_ret.
Qed.

Ltac keeps_step :=
  match goal with
  | |- Keeps (bind _ _) => apply Keeps_bind; [| intro; cbv beta zeta]
  | |- Keeps (ret _) => apply Keeps_ret
  | |- Keeps (raise _) => apply Keeps_raise
  | |- Keeps (log _ _) => apply Keeps_log
  | |- Keeps get_node => apply Keeps_get_node
  | |- Keeps (_request _ _ _ _) => apply Keeps_request
  | |- Keeps (try_except _ _ _) => apply Keeps_try_except; [| intro; cbv beta zeta]
  | |- Keeps (pull_objects _ _) => apply Keeps_pull_each; intro
  | |- Keeps (push_objects _ _ _) => apply Keeps_push_each; intros ? ?
  | |- Keeps (make_pull_object_fn_rest _ _ _ _) => unfold make_pull_object_fn_rest
  | |- Keeps (make_push_object_fn_rest _ _ _ _ _) => unfold make_push_object_fn_rest
  | |- Keeps (pull_object_rest _) => unfold pull_object_rest
  | |- Keeps (push_object_rest _) => unfold push_object_rest
  | |- Keeps (getitem0 ?l) => unfold getitem0; destruct l
  | |- Keeps (receive_pull _ _ _ _) => unfold receive_pull
  | |- Keeps (send_push _ _ _ _) => unfold send_push
  | |- Keeps (match ?x with _ => _ end) => destruct x
  end.

Lemma exchange_operations_keep :
  forall s,
    keeps s (snd (receive s)) /\
    (forall message, keeps s (snd (send message s))) /\
    (forall run, keeps s (snd (get_run run s))) /\
    (forall fab_hash run, keeps s (snd (get_fab fab_hash run s))).
Proof.
  intros s.
  assert (K : forall A (m : M A), Keeps m -> keeps s (snd (m s))).
  { intros A m Hm; destruct (m s) as [x s1] eqn:E; eapply Hm; exact E. }
  split; [|split; [|split]]; intros; apply K.
  - unfold receive; repeat keeps_step.
  - unfold send; repeat keeps_step.
  - unfold get_run; repeat keeps_step.
  - unfold get_fab; repeat keeps_step.
Qed.


(** ** The heartbeat sender runs only while an identity is stored *)

Lemma keeps_heartbeat_invariant : forall s s1,
  keeps s s1 -> heartbeat_invariant s -> heartbeat_invariant s1.
Proof. intros s s1 [N H] Hi Hr; rewrite N; apply Hi; rewrite <- H; exact Hr. Qed.

Lemma session_finally_heartbeat_invariant : forall s,
  heartbeat_invariant s -> heartbeat_invariant (snd (session_finally s)).
Proof.
  intros s Hi; unfold session_finally, try_except, get_node, bind.
  destruct (node s) as [n|] eqn:Hn; [|exact Hi].
  unfold modify; simpl.
  assert (Hi' : heartbeat_invariant (set_max_tries 1 s)) by exact Hi.
  pose proof (delete_node_heartbeat_invariant _ Hi') as Hd.
  destruct (delete_node (set_max_tries 1 s)) as [[u|e] s1]; simpl in Hd |- *;
    [exact Hd|]; destruct (is_RequestsConnectionError e); exact Hd.
Qed.

(** If the heartbeat sender runs only while an identity is stored, every
    operation of the connection keeps it so: [create_node], [delete_node],
    [receive], [send], [get_run], [get_fab] and the final teardown. *)
Theorem heartbeat_runs_only_with_identity :
  forall s,
    heartbeat_invariant s ->
    heartbeat_invariant (snd (create_node s)) /\
    heartbeat_invariant (snd (delete_node s)) /\
    heartbeat_invariant (snd (receive s)) /\
    (forall message, heartbeat_invariant (snd (send message s))) /\
    (forall run, heartbeat_invariant (snd (get_run run s))) /\
    (forall fab_hash run, heartbeat_invariant (snd (get_fab fab_hash run s))) /\
    heartbeat_invariant (snd (session_finally s)).
Proof.
  intros s Hi.
  destruct (exchange_operations_keep s) as (Kr & Ks & Kg & Kf).
  repeat split.
  - apply create_node_heartbeat_invariant; exact Hi.
  - apply delete_node_heartbeat_invariant; exact Hi.
  - eapply keeps_heartbeat_invariant; eassumption.
  - intros message; eapply keeps_heartbeat_invariant; [apply Ks | exact Hi].
  - intros run; eapply keeps_heartbeat_invariant; [apply Kg | exact Hi].
  - intros fab_hash run; eapply keeps_heartbeat_invariant; [apply Kf | exact Hi].
  - apply session_finally_heartbeat_invariant; exact Hi.
Qed.

Lemma heartbeat_runs_only_with_identity_witness :
  heartbeat_invariant (mkState (Some 7) true 3 [Unreachable] []) /\
  heartbeat_invariant (snd (create_node (mkState (Some 7) true 3 [Unreachable] []))).
Proof.
  assert (H : heartbeat_invariant (mkState (Some 7) true 3 [Unreachable] []))
    by (intros _; discriminate).
  split; [exact H|].
  exact (proj1 (heartbeat_runs_only_with_identity _ H)).
Defined.

(** ** Operations that need an identity *)

(** Without a stored identity, the heartbeat probe returns [false],
    [delete_node] and [send] return; each only logs "Node instance
    missing": nothing is posted, nothing else of the state changes. *)
Theorem operations_without_identity_only_log :
  forall s,
    node s = None ->
    send_node_heartbeat s = (Ok false, emit (ELog ERROR "Node instance missing") s) /\
    delete_node s = (Ok tt, emit (ELog ERROR "Node instance missing") s) /\
    (forall message, send message s = (Ok tt, emit (ELog ERROR "Node instance missing") s)).
Proof.
  intros s Hn; unfold send_node_heartbeat, delete_node, send, get_node, bind;
    rewrite Hn; repeat split.
Qed.

Lemma operations_without_identity_only_log_witness :
  node (mkState None false 3 [Responded (ok_response BDeleteNode)] []) = None /\
  delete_node (mkState None false 3 [Responded (ok_response BDeleteNode)] [])
    = (Ok tt, emit (ELog ERROR "Node instance missing")
                (mkState None false 3 [Responded (ok_response BDeleteNode)] [])).
Proof.
  split; [reflexivity|].
  exact (proj1 (proj2 (operations_without_identity_only_log
    (mkState None false 3 [Responded (ok_response BDeleteNode)] []) eq_refl))).
Defined.

(** ** [get_run] and [get_fab] *)

Lemma invoke_attempts_first_ok : forall A n (op : M A) s a s1,
  op s = (Ok a, s1) -> invoke_attempts n op s = (Ok a, s1).
Proof. intros A n op s a s1 E; destruct n; simpl; rewrite E; reflexivity. Qed.

Lemma request_first_response_ok : forall T (parse : Body -> T) p req retry s res rest,
  net s = Responded res :: rest ->
  status_code res = 200 -> content_type res = Some PROTOBUF ->
  _request parse p req retry s =
    (Ok (Some (parse (content res))), set_net rest (emit (EPost p req) s)).
Proof.
  intros T parse p req retry s res rest Hnet Hst Hct.
  assert (Ep : post p req s = (Ok res, set_net rest (emit (EPost p req) s)))
    by (unfold post; rewrite Hnet; reflexivity).
  unfold _request, bind; destruct retry;
    [unfold invoke; rewrite (invoke_attempts_first_ok _ _ _ _ _ _ Ep) | rewrite Ep];
    unfold check_response; rewrite Hst, Hct; reflexivity.
Qed.

(** [get_run] and [get_fab] make no session check: with or without an
    identity they post their request, carrying the current (possibly
    absent) node, and a protobuf response with status 200 is returned as
    its run, respectively as the hash and content of its fab. *)
Theorem get_run_get_fab_without_session_check :
  forall s run_id fab_hash res rest,
    net s = Responded res :: rest ->
    status_code res = 200 -> content_type res = Some PROTOBUF ->
    (forall r, content res = BGetRun r ->
       get_run run_id s =
         (Ok (run_from_proto (GetRunResponse_run r)),
          set_net rest (emit (EPost PATH_GET_RUN (GetRunRequest (node s) run_id)) s))) /\
    (forall r, content res = BGetFab r ->
       get_fab fab_hash run_id s =
         (Ok (mkFab (FabProto_hash_str (GetFabResponse_fab r))
                    (FabProto_content (GetFabResponse_fab r))),
          set_net rest (emit (EPost PATH_GET_FAB (GetFabRequest (node s) fab_hash run_id)) s))).
Proof.
  intros s run_id fab_hash res rest Hnet Hst Hct; split; intros r Hc;
    cbv [get_run get_fab get_node bind];
    rewrite (request_first_response_ok _ _ _ _ true s res rest Hnet Hst Hct), Hc;
    reflexivity.
Qed.

Definition get_run_state : State :=
  mkState None false 2
    [Responded (ok_response (BGetRun (mkGetRunResponse (mkRunProto 4 "app" "1.0" "h"))))] [].

Lemma get_run_get_fab_without_session_check_witness :
  fst (get_run 4 get_run_state) = Ok (mkRun 4 "app" "1.0" "h").
Proof.
  rewrite (proj1 (get_run_get_fab_without_session_check get_run_state 4 "h"
    (ok_response (BGetRun (mkGetRunResponse (mkRunProto 4 "app" "1.0" "h")))) []
    eq_refl eq_refl eq_refl) (mkGetRunResponse (mkRunProto 4 "app" "1.0" "h")) eq_refl).
  reflexivity.
Defined.

(** ** Requests and their failures *)

(** A request sent with [retry=False] posts exactly once, whatever the
    retry budget; if the server cannot be reached, [ConnectionError]
    propagates out of the request helper. *)
Theorem request_without_retry_posts_once :
  forall T (parse : Body -> T) api_path req s,
    posts (trace (snd (_request parse api_path req false s))) = posts (trace s) ++ [(api_path, req)] /\
    ((net s = [] \/ exists rest, net s = Unreachable :: rest) ->
     fst (_request parse api_path req false s) = Exc RequestsConnectionError).
Proof.
  intros T parse api_path req s; split.
  - unfold _request, bind.
    destruct (post api_path req s) as [[res|e] s0] eqn:Ep;
      pose proof (post_trace _ _ _ _ _ Ep) as Tp.
    + pose proof (check_response_posts _ parse api_path res s0) as Hc.
      rewrite Hc, Tp, posts_app; reflexivity.
    + simpl; rewrite Tp, posts_app; reflexivity.
  - intros Hnet; unfold _request, bind, post.
    destruct Hnet as [-> | [rest ->]]; reflexivity.
Qed.

Lemma request_without_retry_posts_once_witness :
  fst (_request parse_empty PATH_PUSH_OBJECT (PushObjectRequest 7 1 "c1" []) false
         (mkState (Some 7) true 5 [Unreachable; Responded (ok_response BPushObject)] []))
  = Exc RequestsConnectionError.
Proof.
  apply (request_without_retry_posts_once _ parse_empty PATH_PUSH_OBJECT
    (PushObjectRequest 7 1 "c1" [])
    (mkState (Some 7) true 5 [Unreachable; Responded (ok_response BPushObject)] [])).
  right; eexists; reflexivity.
Defined.


(** ** [receive] beyond the absent cases *)

Definition pull_success_log : Event :=
  ELog INFO ("[Node] POST /" ++ PATH_PULL_MESSAGES ++ ": success")%string.

(** When the pull-messages request yields no response, [receive] returns
    [None] and posts nothing more. *)
Theorem receive_no_response_is_absent :
  forall s n s1,
    node s = Some n ->
    _request parse_PullMessagesResponse PATH_PULL_MESSAGES (PullMessagesRequest n) true s
      = (Ok None, s1) ->
    receive s = (Ok None, s1).
Proof.
  intros s n s1 Hn Hreq; cbv [receive get_node bind]; rewrite Hn; cbv beta iota.
  rewrite Hreq; reflexivity.
Qed.

Lemma receive_no_response_is_absent_witness :
  receive (mkState (Some 7) true 1 [Responded (mkResponse 502 None BDeleteNode)] [])
  = (Ok None, mkState (Some 7) true 1 [] [EPost PATH_PULL_MESSAGES (PullMessagesRequest 7)]).
Proof. apply (receive_no_response_is_absent _ 7); reflexivity. Defined.

(** A message addressed to this node but sent without any object tree
    makes [receive] raise [IndexError] ([res.message_object_trees[0]]),
    which the [except ValueError] clause does not catch. *)
Theorem receive_without_object_tree_raises_index_error :
  forall s n r s1 m rest,
    node s = Some n ->
    _request parse_PullMessagesResponse PATH_PULL_MESSAGES (PullMessagesRequest n) true s
      = (Ok (Some r), s1) ->
    messages_list r = m :: rest -> dst_node_id (metadata m) = n ->
    message_object_trees r = [] ->
    receive s = (Exc IndexError, emit pull_success_log s1).
Proof.
  intros s n r s1 m rest Hn Hreq Hm Hdst Ht.
  cbv [receive get_node bind]; rewrite Hn; cbv beta iota; rewrite Hreq.
  unfold valid_message_proto; rewrite Hm, Hdst, Z.eqb_refl; simpl.
  cbv [receive_pull try_except getitem0 bind log modify raise]; rewrite Ht; reflexivity.
Qed.

Definition no_tree_state : State :=
  mkState (Some 7) true 1
    [Responded (ok_response (BPullMessages (mkPullMessagesResponse
       [mkMessageProto (mkMetadata "m1" 1 7)] [])))] [].

Lemma receive_without_object_tree_raises_index_error_witness :
  fst (receive no_tree_state) = Exc IndexError.
Proof.
  rewrite (receive_without_object_tree_raises_index_error no_tree_state 7
    (mkPullMessagesResponse [mkMessageProto (mkMetadata "m1" 1 7)] [])
    (mkState (Some 7) true 1 [] [EPost PATH_PULL_MESSAGES (PullMessagesRequest 7)])
    (mkMessageProto (mkMetadata "m1" 1 7)) [] eq_refl eq_refl eq_refl eq_refl eq_refl).
  reflexivity.
Defined.


(** ** Registration followed by unregistration *)

(** A successful [create_node] followed by a [delete_node] whose request
    yields a response leaves no identity and a stopped heartbeat sender; the
    trace shows the sender started, then stopped, before the unregister
    request; a second [delete_node] posts nothing and only logs the missing
    identity. *)
Theorem create_then_delete_node :
  forall s r s1 u s3,
    _request parse_CreateNodeResponse PATH_CREATE_NODE
      (CreateNodeRequest HEARTBEAT_DEFAULT_INTERVAL) true s = (Ok (Some r), s1) ->
    _request parse_empty PATH_DELETE_NODE (DeleteNodeRequest (CreateNodeResponse_node r)) true
      (snd (heartbeat_stop (snd (create_node s)))) = (Ok (Some u), s3) ->
    let s4 := snd (delete_node (snd (create_node s))) in
    s4 = set_node None s3 /\ node s4 = None /\ hb_running s4 = false /\
    (exists t, trace s4 = trace s1 ++ EHeartbeatStart :: EHeartbeatStop ::
       EPost PATH_DELETE_NODE (DeleteNodeRequest (CreateNodeResponse_node r)) :: t) /\
    delete_node s4 = (Ok tt, emit (ELog ERROR "Node instance missing") s4).
Proof.
  intros s r s1 u s3 Hreq Hdel s4.
  assert (Hc : create_node s = (Ok (Some (CreateNodeResponse_node r)),
    set_hb_running true (emit EHeartbeatStart (set_node (Some (CreateNodeResponse_node r)) s1)))).
  { unfold create_node, bind; rewrite Hreq; reflexivity. }
  rewrite Hc in Hdel; cbn [snd] in Hdel.
  assert (Hs4 : s4 = set_node None s3).
  { unfold s4; rewrite Hc; cbn [snd].
    rewrite (delete_node_unfold (set_hb_running true
      (emit EHeartbeatStart (set_node (Some (CreateNodeResponse_node r)) s1)))
      (CreateNodeResponse_node r) eq_refl), Hdel; reflexivity. }
  destruct (Frames_request _ _ _ _ _ _ _ _ Hdel) as (_ & Hhb & _).
  destruct (request_posts_first _ _ _ _ _ _ _ _ Hdel) as [t Et].
  rewrite Hs4; split; [reflexivity|split; [reflexivity|split; [exact Hhb|split]]].
  - exists t; cbn [trace set_node]; rewrite Et; simpl; rewrite <- !app_assoc; reflexivity.
  - reflexivity.
Qed.

Definition create_delete_state : State :=
  mkState None false 4
    [Responded (ok_response (BCreateNode (mkCreateNodeResponse 9)));
     Responded (ok_response BDeleteNode)] [].

Lemma create_then_delete_node_witness :
  node (snd (delete_node (snd (create_node create_delete_state)))) = None.
Proof.
  exact (proj1 (proj2 (create_then_delete_node create_delete_state (mkCreateNodeResponse 9)
    (snd (_request parse_CreateNodeResponse PATH_CREATE_NODE
            (CreateNodeRequest HEARTBEAT_DEFAULT_INTERVAL) true create_delete_state))
    tt
    (snd (_request parse_empty PATH_DELETE_NODE (DeleteNodeRequest 9) true
            (snd (heartbeat_stop (snd (create_node create_delete_state))))))
    eq_refl eq_refl))).
Defined.

(** ** The session scope without an identity *)

(** When the caller's code leaves no identity (never registered, or
    already unregistered), the [finally] clause does nothing: the scope
    ends exactly as the [try] part did, with no request posted and the
    retry budget untouched. *)
Theorem scope_without_identity_only_runs_try :
  forall body s r1 s1,
    body s = (r1, s1) -> node s1 = None ->
    http_request_response_scope body s = session_try body s.
Proof.
  intros body s r1 s1 E Hn.
  pose proof (session_try_node body s r1 s1 E) as Hnode; rewrite Hn in Hnode.
  unfold http_request_response_scope.
  destruct (session_try body s) as [r s2]; cbn [snd] in Hnode.
  unfold session_finally, try_except, get_node, bind; rewrite Hnode; reflexivity.
Qed.

Lemma scope_without_identity_only_runs_try_witness :
  http_request_response_scope (@raise unit ValueError) (mkState None false 1 [] [])
  = session_try (@raise unit ValueError) (mkState None false 1 [] []).
Proof.
  apply (scope_without_identity_only_runs_try _ _ (Exc ValueError) (mkState None false 1 [] []));
    reflexivity.
Defined.

Lemma posts_emit_logs : forall logs s,
  posts (trace (emit_logs logs s)) = posts (trace s).
Proof.
  induction logs as [|[l m] logs IH]; intros s; [reflexivity|].
  simpl; rewrite IH; cbn [trace emit]; rewrite posts_app, app_nil_r; reflexivity.
Qed.

(** A connection whose caller does nothing ends normally without posting
    any request: no registration, no unregistration. *)
Theorem unused_connection_posts_nothing :
  forall (K : Type) insecure root_certificates (authentication_keys : option K) s,
    fst (http_request_response insecure root_certificates authentication_keys (ret tt) s) = Ok tt /\
    posts (trace (snd (http_request_response insecure root_certificates authentication_keys
                         (ret tt) s))) = posts (trace s).
Proof.
  intros K insecure rc keys s.
  unfold http_request_response, http_request_response_scope, session_try, try_except,
    session_finally, get_node, bind, ret; cbn.
  split; [reflexivity|]; apply posts_emit_logs.
Qed.

(** Root certificates given as bytes are not used: verification falls back
    to the system's certificates ([verify=True]) and an error is logged;
    given as a string they become the [verify] path, with no such error. *)
Theorem connection_setup_root_certificates :
  forall (K : Type) insecure (authentication_keys : option K) b p,
    fst (connection_setup insecure (Some (RCBytes b)) authentication_keys) = VerifyBool true /\
    In (ERROR, "For the REST API, the root certificates must be provided as a string path to the client.")
       (snd (connection_setup insecure (Some (RCBytes b)) authentication_keys)) /\
    fst (connection_setup insecure (Some (RCStr p)) authentication_keys) = VerifyPath p /\
    ~ In (ERROR, "For the REST API, the root certificates must be provided as a string path to the client.")
       (snd (connection_setup insecure (Some (RCStr p)) authentication_keys)).
Proof.
  intros K insecure keys b p; destruct keys; simpl;
    repeat split; auto; intuition discriminate.
Qed.

Lemma connection_setup_root_certificates_witness :
  ~ In (ERROR, "For the REST API, the root certificates must be provided as a string path to the client.")
     (snd (connection_setup false (Some (RCStr "ca.pem")) (@None unit))).
Proof.
  exact (proj2 (proj2 (proj2 (connection_setup_root_certificates unit false None [] "ca.pem")))).
Defined.



